(** * A shallow embedding of the WhatsApp scheduler server

    The repository holds two revisions of the server: [server.js]
    (a due-sweep driven by [/api/check-pending], luxon time conversion and a
    receipt webhook) and an earlier, timer-driven revision (in-process
    [setTimeout] triggers re-armed by [initPendingMessages]).  Both are
    embedded here, over one model of JavaScript values, of the two database
    tables and of the provider's HTTP API.  What the runtime supplies is
    passed in where it is read: the clock, the sequences of the database,
    the answers of the provider and the time-zone database behind luxon. *)

From Stdlib Require Import ZArith List String Ascii Bool Lia.
Import ListNotations.
Open Scope string_scope.
Open Scope Z_scope.

(** ** JavaScript values *)

(** JSON-shaped JavaScript values: request bodies parsed by [bodyParser.json],
    response bodies returned by axios, and the payload objects the server
    builds.  Numbers are the integer-valued ones. *)
#[warnings="-register-all"]
Inductive value : Type :=
| VUndef
| VNull
| VBool (b : bool)
| VNum (n : Z)
| VStr (s : string)
| VArr (items : list value)
| VObj (fields : list (string * value)).

Inductive JsError : Type :=
| TypeError (msg : string)
| ErrorMsg (msg : string)
| HttpFailure (msg : string)
| DbFailure (msg : string).

Definition error_message (e : JsError) : string :=
  match e with
  | TypeError m | ErrorMsg m | HttpFailure m | DbFailure m => m
  end.

Inductive Res (A : Type) : Type :=
| Ok (a : A)
| Throw (e : JsError).
Arguments Ok {A} a.
Arguments Throw {A} e.

(** [!!v] *)
Definition truthy (v : value) : bool :=
  match v with
  | VUndef | VNull => false
  | VBool b => b
  | VNum n => negb (n =? 0)
  | VStr s => negb (s =? "")%string
  | VArr _ | VObj _ => true
  end.

(** [a || b] *)
Definition js_or (a b : value) : value := if truthy a then a else b.

Fixpoint assoc (k : string) (fs : list (string * value)) : value :=
  match fs with
  | [] => VUndef
  | (k', v) :: rest => if (k =? k')%string then v else assoc k rest
  end.

(** [o[k] = v] on an object's own properties: an existing key keeps its
    place, a new key is appended. *)
Fixpoint set_field (k : string) (v : value) (fs : list (string * value))
  : list (string * value) :=
  match fs with
  | [] => [(k, v)]
  | (k', v') :: rest =>
      if (k =? k')%string then (k, v) :: rest else (k', v') :: set_field k v rest
  end.

(** [v.k] for the property names the server reads ([entry], [changes],
    [value], [statuses], [id], [status], [messages]): none of them is a
    built-in property of a string, number, boolean or array. *)
Definition get_prop (v : value) (k : string) : Res value :=
  match v with
  | VUndef | VNull =>
      Throw (TypeError ("Cannot read properties of undefined or null: " ++ k))
  | VObj fs => Ok (assoc k fs)
  | _ => Ok VUndef
  end.

(** [v?.k] *)
Definition opt_prop (v : value) (k : string) : value :=
  match v with
  | VObj fs => assoc k fs
  | _ => VUndef
  end.

(** [v?.[0]] *)
Definition opt_index0 (v : value) : value :=
  match v with
  | VArr items => hd VUndef items
  | VObj fs => assoc "0" fs
  | VStr (String c _) => VStr (String c "")
  | _ => VUndef
  end.

Fixpoint chars (s : string) : list value :=
  match s with
  | EmptyString => []
  | String c rest => VStr (String c "") :: chars rest
  end.

(** The values a [for (const x of v)] loop visits. *)
Definition iterate (v : value) : Res (list value) :=
  match v with
  | VArr items => Ok items
  | VStr s => Ok (chars s)
  | _ => Throw (TypeError "value is not iterable")
  end.

(** [v === 'lit'] *)
Definition is_str (v : value) (lit : string) : bool :=
  match v with
  | VStr s => (s =? lit)%string
  | _ => false
  end.

(** ** The database *)

(** The two tables are held in memory.  A statement fails when the database
    rejects it (a parameter it cannot read, a violated constraint); a lost
    connection is not part of the model. *)

(** [media_library (id SERIAL PRIMARY KEY, name TEXT, type TEXT,
    content BYTEA)] *)
Record MediaRow : Type := mkMedia {
  ml_id : Z;
  ml_name : string;
  ml_type : string;
  ml_content : string
}.

(** [scheduled_messages (id SERIAL PRIMARY KEY, phone_number TEXT NOT NULL,
    message_text TEXT, media_id INT REFERENCES media_library(id),
    scheduled_time TIMESTAMP NOT NULL, status TEXT DEFAULT 'pending')].
    A timestamp is the number of milliseconds its date and time fields
    denote when read as UTC; the timestamps meant are the finite ones of
    years written with four digits, which the database, luxon and the
    runtime's [Date] all hold. *)
Record Msg : Type := mkMsg {
  sm_id : Z;
  sm_phone_number : string;
  sm_message_text : option string;
  sm_media_id : option Z;
  sm_scheduled_time : Z;
  sm_status : string
}.

(** [next_id] is the next value of the sequence behind
    [scheduled_messages.id]. *)
Record Db : Type := mkDb {
  media_library : list MediaRow;
  scheduled_messages : list Msg;
  next_id : Z
}.

Definition set_status (st : string) (m : Msg) : Msg :=
  mkMsg (sm_id m) (sm_phone_number m) (sm_message_text m) (sm_media_id m)
        (sm_scheduled_time m) st.

(** [UPDATE scheduled_messages SET status=$1 WHERE id=$2]; a NULL [$2]
    matches no row. *)
Definition update_status (st : string) (key : option Z) (d : Db) : Db :=
  match key with
  | None => d
  | Some k =>
      mkDb (media_library d)
           (map (fun m => if sm_id m =? k then set_status st m else m)
                (scheduled_messages d))
           (next_id d)
  end.

(** [SELECT * FROM media_library WHERE id=$1], then [r.rows[0]]. *)
Definition select_media (k : Z) (d : Db) : option MediaRow :=
  find (fun r => ml_id r =? k) (media_library d).

(** [SELECT * FROM scheduled_messages WHERE status='pending' AND
    scheduled_time <= $1] *)
Definition select_due (now : Z) (d : Db) : list Msg :=
  filter (fun m => (sm_status m =? "pending")%string && (sm_scheduled_time m <=? now))
         (scheduled_messages d).

(** *** Integer parameters *)

Definition digit_of (c : ascii) : option Z :=
  let n := Z.of_nat (nat_of_ascii c) in
  if (48 <=? n) && (n <=? 57) then Some (n - 48) else None.

Definition is_space (c : ascii) : bool :=
  let n := nat_of_ascii c in
  (Nat.eqb n 32) || ((Nat.leb 9 n) && (Nat.leb n 13)).

Fixpoint skip_spaces (s : string) : string :=
  match s with
  | String c rest => if is_space c then skip_spaces rest else s
  | EmptyString => s
  end.

Fixpoint all_spaces (s : string) : bool :=
  match s with
  | String c rest => is_space c && all_spaces rest
  | EmptyString => true
  end.

(** The digits of a literal, then nothing but white space. *)
Fixpoint digits (acc : Z) (s : string) : option Z :=
  match s with
  | EmptyString => Some acc
  | String c rest =>
      match digit_of c with
      | Some dgt => digits (10 * acc + dgt) rest
      | None => if all_spaces s then Some acc else None
      end
  end.

Definition unsigned (s : string) : option Z :=
  match s with
  | String c _ => match digit_of c with Some _ => digits 0 s | None => None end
  | EmptyString => None
  end.

(** Decimal integer literals as the database reads them for an [INT]
    column: white space, an optional sign, at least one digit, white
    space. *)
Definition decimal (s : string) : option Z :=
  match skip_spaces s with
  | String "-" rest => option_map Z.opp (unsigned rest)
  | String "+" rest => unsigned rest
  | t => unsigned t
  end.

Definition in_int4 (n : Z) : bool := (-2147483648 <=? n) && (n <=? 2147483647).

Definition int4_of (n : Z) : Res (option Z) :=
  if in_int4 n then Ok (Some n)
  else Throw (DbFailure "value is out of range for type integer").

(** A query parameter compared with the [id] column: the driver sends
    [null]/[undefined] as NULL and everything else as text, which the
    database must read as an integer or reject the statement. *)
Definition int4_param (v : value) : Res (option Z) :=
  match v with
  | VUndef | VNull => Ok None
  | VNum n => int4_of n
  | VStr s =>
      match decimal s with
      | Some n => int4_of n
      | None => Throw (DbFailure "invalid input syntax for type integer")
      end
  | VBool _ | VArr _ | VObj _ =>
      Throw (DbFailure "invalid input syntax for type integer")
  end.

(** ** The provider and the world *)

(** The two Graph API endpoints the server posts to. *)
Inductive Call : Type :=
| PostMedia (name type content : string)
| PostMessages (payload : value).

Inductive HttpResult : Type :=
| HttpOk (data : value)
| HttpErr (msg : string).

(** The provider answers a request in view of the requests made so far. *)
Definition Provider : Type := list Call -> Call -> HttpResult.

(** Work the event loop still owes: a timer armed with
    [setTimeout(() => sendAndMark(msg), delay)], with the delay the runtime
    keeps for it, or a call [sendAndMark(msg)] that was started without
    [await], whose requests and status write come only after its caller has
    gone on. *)
Inductive Timer : Type :=
| Armed (delay : Z) (msg : Msg)
| Started (msg : Msg).

Definition timer_msg (t : Timer) : Msg :=
  match t with
  | Armed _ msg | Started msg => msg
  end.

(** What a run can change: the tables, the requests made to the provider,
    the lines written with [console.error], the work the event loop still
    owes (armed timers and started dispatches). *)
Record World : Type := mkWorld {
  db : Db;
  calls : list Call;
  errors : list (string * string);
  timers : list Timer
}.

Definition M (A : Type) : Type := World -> Res A * World.

Definition ret {A} (a : A) : M A := fun w => (Ok a, w).

Definition throw {A} (e : JsError) : M A := fun w => (Throw e, w).

Definition bind {A B} (m : M A) (k : A -> M B) : M B :=
  fun w =>
    match m w with
    | (Ok a, w') => k a w'
    | (Throw e, w') => (Throw e, w')
    end.

(** [try { body } catch (err) { handler }] *)
Definition try_catch {A} (body : M A) (handler : JsError -> M A) : M A :=
  fun w =>
    match body w with
    | (Ok a, w') => (Ok a, w')
    | (Throw e, w') => handler e w'
    end.

Definition lift {A} (r : Res A) : M A := fun w => (r, w).

Declare Scope js_scope.
Delimit Scope js_scope with js.
Notation "x <- m ;; k" := (bind m (fun x => k))
  (at level 100, m at next level, right associativity) : js_scope.
Notation "m ;;; k" := (bind m (fun _ => k))
  (at level 100, right associativity) : js_scope.
Open Scope js_scope.

Definition get_db : M Db := fun w => (Ok (db w), w).

Definition modify_db (f : Db -> Db) : M unit :=
  fun w => (Ok tt, mkWorld (f (db w)) (calls w) (errors w) (timers w)).

(** [console.error(tag, detail)] *)
Definition console_error (tag detail : string) : M unit :=
  fun w => (Ok tt, mkWorld (db w) (calls w) (errors w ++ [(tag, detail)]) (timers w)).

(** The longest delay a timer of the runtime takes. *)
Definition TIMEOUT_MAX : Z := 2147483647.

(** [setTimeout(() => sendAndMark(msg), delay)]: the runtime keeps a delay
    from 1 to [TIMEOUT_MAX] milliseconds and sets every other delay to 1. *)
Definition setTimeout (msg : Msg) (delay : Z) : M unit :=
  fun w =>
    let after := if (1 <=? delay) && (delay <=? TIMEOUT_MAX) then delay else 1 in
    (Ok tt, mkWorld (db w) (calls w) (errors w) (timers w ++ [Armed after msg])).

(** [sendAndMark(msg)] called without [await]: the caller goes on at once. *)
Definition unawaited_sendAndMark (msg : Msg) : M unit :=
  fun w => (Ok tt, mkWorld (db w) (calls w) (errors w) (timers w ++ [Started msg])).

(** [for (const x of xs) body(x)], stopping at the first throw. *)
Fixpoint for_of {A} (xs : list A) (body : A -> M unit) : M unit :=
  match xs with
  | [] => ret tt
  | x :: rest => body x ;;; for_of rest body
  end.

(** The elements of a list with the number of the turn that visits them. *)
Definition indexed {A} (xs : list A) : list (nat * A) :=
  combine (seq 0 (List.length xs)) xs.

Definition text_value (t : option string) : value :=
  match t with
  | Some s => VStr s
  | None => VNull
  end.

(** [WHATSAPP_ALLOWED_TYPES], in the order [Object.entries] lists it. *)
Definition WHATSAPP_ALLOWED_TYPES : list (string * list string) :=
  [ ("image", ["image/jpeg"; "image/png"; "image/webp"]);
    ("video", ["video/mp4"; "video/3gpp"]);
    ("audio", ["audio/aac"; "audio/mp4"; "audio/mpeg"; "audio/amr";
               "audio/ogg"; "audio/opus"]);
    ("document",
      ["application/pdf"; "application/vnd.ms-powerpoint"; "application/msword";
       "application/vnd.openxmlformats-officedocument.wordprocessingml.document";
       "application/vnd.openxmlformats-officedocument.presentationml.presentation";
       "application/vnd.openxmlformats-officedocument.spreadsheetml.sheet";
       "text/plain"; "application/vnd.ms-excel"]) ].

(** [list.includes(x)] *)
Definition includes (l : list string) (x : string) : bool :=
  existsb (fun y => (y =? x)%string) l.

Fixpoint first_category (table : list (string * list string)) (mimeType : string)
  : option string :=
  match table with
  | [] => None
  | (type, list) :: rest =>
      if includes list mimeType then Some type else first_category rest mimeType
  end.

Definition getWhatsAppPayloadType (mimeType : string) : string :=
  match first_category WHATSAPP_ALLOWED_TYPES mimeType with
  | Some type => type
  | None => "document"
  end.

Section WithProvider.

Variable provider : Provider.

(** [await axios.post(url, body, ...)], giving [response.data]; a failed
    request rejects. *)
Definition axios_post (c : Call) : M value :=
  fun w =>
    let w' := mkWorld (db w) (calls w ++ [c]) (errors w) (timers w) in
    match provider (calls w) c with
    | HttpOk data => (Ok data, w')
    | HttpErr msg => (Throw (HttpFailure msg), w')
    end.

Definition uploadMediaToWhatsApp (name type buffer : string) : M value :=
  try_catch
    (data <- axios_post (PostMedia name type buffer) ;;
     lift (get_prop data "id"))
    (fun err =>
       console_error "WhatsApp media upload error" (error_message err) ;;;
       ret VNull).

End WithProvider.

(** [const payload = { messaging_product: 'whatsapp', to }] *)
Definition base_payload (to : string) : list (string * value) :=
  [("messaging_product", VStr "whatsapp"); ("to", VStr to)].

(** [payload.type = waType; payload[waType] = { id: mediaId, caption: text || "" }] *)
Definition media_payload (to : string) (text : option string) (waType : string)
  (mediaId : value) : value :=
  VObj (set_field waType
          (VObj [("id", mediaId); ("caption", js_or (text_value text) (VStr ""))])
          (set_field "type" (VStr waType) (base_payload to))).

(** [payload.type = 'text'; payload.text = { body: text }] *)
Definition text_payload (to : string) (text : option string) : value :=
  VObj (set_field "text" (VObj [("body", text_value text)])
          (set_field "type" (VStr "text") (base_payload to))).

(** [msg.media_id ? (await pool.query(...)).rows[0] : null]: a NULL or zero
    [media_id] is falsy; a query without rows gives [undefined], which is as
    falsy as [null] for the caller. *)
Definition resolve_media (m : Msg) : M (option MediaRow) :=
  match sm_media_id m with
  | None => ret None
  | Some k => if k =? 0 then ret None else d <- get_db ;; ret (select_media k d)
  end.

(** ** Scheduling requests *)

(** A date-time literal by what it denotes: [wall] is its date and time
    fields in milliseconds (read as if UTC), [offset] the UTC offset it
    carries, in minutes east, if it carries one.  The literals meant are
    those of a year written with four digits. *)
Record IsoTime : Type := mkIso {
  wall : Z;
  offset : option Z
}.

(** The [scheduled_time] of a request body: absent or empty, text that is
    no date-time, or a date-time literal. *)
Inductive TimeField : Type :=
| TimeMissing
| TimeInvalid
| TimeLiteral (t : IsoTime).

(** The body of [POST /api/schedule-message], as the admin page sends it. *)
Record ScheduleRequest : Type := mkRequest {
  rq_phone_number : string;
  rq_message_text : option string;
  rq_media_id : value;
  rq_scheduled_time : TimeField
}.

Definition ms_per_minute : Z := 60000.

(** A time zone, as the time-zone database of the runtime has it (the
    database is no part of the repository): the instant, in milliseconds,
    at which the clocks of the zone show the date and time fields [wall].
    For Asia/Kolkata the database holds the offsets India has had:
    UTC+05:30 since 15 October 1945, UTC+06:30 for most of 1942 to 1945,
    local mean times before 1906. *)
Definition Zone : Type := Z -> Z.

(** The instant a literal denotes: its own offset fixes it; a literal
    without offset is read in [zone]. *)
Definition instant_in (zone : Zone) (t : IsoTime) : Z :=
  match offset t with
  | Some o => wall t - o * ms_per_minute
  | None => zone (wall t)
  end.

(** [DateTime.fromISO(s, { zone: 'Asia/Kolkata' }).toUTC().toISO()], with
    [Asia_Kolkata] for what the time-zone database says of that zone: the
    result is the literal's instant written in UTC, or [null] for text that
    is no date-time. *)
Definition fromISO_toUTC_toISO (Asia_Kolkata : Zone) (t : TimeField) : option IsoTime :=
  match t with
  | TimeLiteral l => Some (mkIso (instant_in Asia_Kolkata l) (Some 0))
  | _ => None
  end.

(** A [TIMESTAMP] (without time zone) column keeps the date and time
    fields of a literal and drops its offset. *)
Definition timestamp_in (t : IsoTime) : Z := wall t.

(** [INSERT INTO scheduled_messages(...) VALUES($1,$2,$3,$4,'pending')
    RETURNING *]: the sequence gives the id; [scheduled_time] is NOT NULL
    and [media_id] must name a row of [media_library]. *)
Definition insert_message (phone : string) (text : option string)
  (media : option Z) (time : option Z) : M Msg :=
  fun w =>
    let d := db w in
    let d' := mkDb (media_library d) (scheduled_messages d) (next_id d + 1) in
    let w' := mkWorld d' (calls w) (errors w) (timers w) in
    match time with
    | None => (Throw (DbFailure "null value in column scheduled_time"), w')
    | Some t =>
        let row := mkMsg (next_id d) phone text media t "pending" in
        let stored :=
          mkWorld (mkDb (media_library d) (scheduled_messages d ++ [row]) (next_id d + 1))
                  (calls w) (errors w) (timers w) in
        match media with
        | None => (Ok row, stored)
        | Some k =>
            match select_media k d with
            | Some _ => (Ok row, stored)
            | None => (Throw (DbFailure "violates foreign key constraint"), w')
            end
        end
    end.

(** What the handler answers with [res.json]. *)
Inductive ScheduleResponse : Type :=
| Scheduled
| Rejected (error : string).

(** ** [server.js] *)

Module Server.

Section Run.

Variable provider : Provider.

(** Gives the provider's message id, or [null]. *)
Definition sendWhatsAppMessage (to : string) (text : option string)
  (mediaRow : option MediaRow) : M value :=
  try_catch
    (payload <-
       match mediaRow with
       | Some row =>
           mediaId <- uploadMediaToWhatsApp provider
                        (ml_name row) (ml_type row) (ml_content row) ;;
           if truthy mediaId
           then ret (media_payload to text (getWhatsAppPayloadType (ml_type row)) mediaId)
           else throw (ErrorMsg "Media upload failed")
       | None => ret (text_payload to text)
       end ;;
     data <- axios_post provider (PostMessages payload) ;;
     messages <- lift (get_prop data "messages") ;;
     ret (js_or (opt_prop (opt_index0 messages) "id") VNull))
    (fun err =>
       console_error "Send WhatsApp message error" (error_message err) ;;;
       ret VNull).

(** One turn of the loop over [pending.rows]. *)
Definition process_one (msg : Msg) : M unit :=
  try_catch
    (mediaRow <- resolve_media msg ;;
     messageId <- sendWhatsAppMessage (sm_phone_number msg) (sm_message_text msg) mediaRow ;;
     modify_db (update_status (if truthy messageId then "sent" else "failed")
                              (Some (sm_id msg))))
    (fun err =>
       console_error "Error processing scheduled message" (error_message err) ;;;
       modify_db (update_status "failed" (Some (sm_id msg)))).

(** [nowUTC] is the clock reading [DateTime.now().toUTC()]. *)
Definition processDueMessages (nowUTC : Z) : M unit :=
  try_catch
    (d <- get_db ;;
     for_of (select_due nowUTC d) process_one)
    (fun err => console_error "processDueMessages error" (error_message err)).

(** One receipt of the webhook's innermost loop. *)
Definition process_status (status : value) : M unit :=
  messageId <- lift (get_prop status "id") ;;
  messageStatus <- lift (get_prop status "status") ;;
  key <- lift (int4_param messageId) ;;
  modify_db (update_status
               (if is_str messageStatus "delivered" || is_str messageStatus "read"
                then "sent" else "failed")
               key).

Definition process_change (change : value) : M unit :=
  v <- lift (get_prop change "value") ;;
  statuses0 <- lift (get_prop v "statuses") ;;
  statuses <- lift (iterate (js_or statuses0 (VArr []))) ;;
  for_of statuses process_status.

Definition process_entry (entry : value) : M unit :=
  changes0 <- lift (get_prop entry "changes") ;;
  changes <- lift (iterate (js_or changes0 (VArr []))) ;;
  for_of changes process_change.

(** The [try] block of the webhook. *)
Definition process_receipts (body : value) : M unit :=
  entries0 <- lift (get_prop body "entry") ;;
  entries <- lift (iterate (js_or entries0 (VArr []))) ;;
  for_of entries process_entry.

(** [app.post('/webhook')]: the HTTP status code sent back. *)
Definition post_webhook (body : value) : M Z :=
  try_catch
    (process_receipts body)
    (fun err => console_error "Error processing webhook" (error_message err)) ;;;
  ret 200.

(** [app.post('/api/schedule-message')]; [Asia_Kolkata] is the zone of that
    name as the time-zone database has it. *)
Definition post_schedule_message (Asia_Kolkata : Zone) (rq : ScheduleRequest)
  : M ScheduleResponse :=
  try_catch
    (if (rq_phone_number rq =? "")%string
     then ret (Rejected "Missing required fields")
     else
       match rq_scheduled_time rq with
       | TimeMissing => ret (Rejected "Missing required fields")
       | scheduled_time =>
           let scheduledUTC := fromISO_toUTC_toISO Asia_Kolkata scheduled_time in
           media <- lift (int4_param (js_or (rq_media_id rq) VNull)) ;;
           insert_message (rq_phone_number rq) (rq_message_text rq) media
                          (option_map timestamp_in scheduledUTC) ;;;
           ret Scheduled
       end)
    (fun err =>
       console_error "Schedule message error" (error_message err) ;;;
       ret (Rejected (error_message err))).

End Run.

End Server.

(** ** The timer-driven revision *)

Module TimerServer.

Section Run.

Variable provider : Provider.

(** The time zone of the process.  The driver reads a stored timestamp,
    which carries no zone, in it: [msg.scheduled_time] is the instant at
    which the clocks of that zone show the stored date and time fields. *)
Variable local : Zone.

(** Tells whether the message was submitted.  (The [msgId] argument of the
    source only feeds the log lines.) *)
Definition sendWhatsAppMessage (to : string) (text : option string)
  (mediaRow : option MediaRow) : M bool :=
  try_catch
    (payload <-
       match mediaRow with
       | Some row =>
           mediaId <- uploadMediaToWhatsApp provider
                        (ml_name row) (ml_type row) (ml_content row) ;;
           if truthy mediaId
           then ret (media_payload to text (getWhatsAppPayloadType (ml_type row)) mediaId)
           else throw (ErrorMsg "Media upload failed")
       | None => ret (text_payload to text)
       end ;;
     axios_post provider (PostMessages payload) ;;;
     ret true)
    (fun err =>
       console_error "Message failed" (error_message err) ;;;
       ret false).

Definition sendAndMark (msg : Msg) : M unit :=
  try_catch
    (mediaRow <- resolve_media msg ;;
     success <- sendWhatsAppMessage (sm_phone_number msg) (sm_message_text msg) mediaRow ;;
     if success
     then modify_db (update_status "sent" (Some (sm_id msg)))
     else modify_db (update_status "failed" (Some (sm_id msg))))
    (fun err =>
       console_error "Error sending scheduled message" (error_message err) ;;;
       modify_db (update_status "failed" (Some (sm_id msg)))).

(** [now] is the reading of the clock that [scheduleMessage] takes itself
    ([new Date()]), in milliseconds.  The dispatch of a message that is
    already due is started and not awaited. *)
Definition scheduleMessage (now : Z) (msg : Msg) : M unit :=
  let scheduledTime := local (sm_scheduled_time msg) in
  let delay := scheduledTime - now in
  if delay <=? 0 then unawaited_sendAndMark msg
  else setTimeout msg delay.

(** [SELECT * FROM scheduled_messages WHERE status='pending' AND
    scheduled_time >= $1] *)
Definition select_upcoming (now : Z) (d : Db) : list Msg :=
  filter (fun m => (sm_status m =? "pending")%string && (now <=? sm_scheduled_time m))
         (scheduled_messages d).

(** [now] is the reading of the clock the query is given, as the driver
    sends it to be compared with a timestamp: the date and time fields the
    clocks of the process's zone show.  [clock i] is the reading
    [scheduleMessage] takes in turn [i] of the loop, after the awaited
    query. *)
Definition initPendingMessages (now : Z) (clock : nat -> Z) : M unit :=
  try_catch
    (d <- get_db ;;
     for_of (indexed (select_upcoming now d))
            (fun turn => scheduleMessage (clock (fst turn)) (snd turn)))
    (fun err => console_error "Error initializing pending messages" (error_message err)).

(** The event loop runs a piece of work it owes: the callback of an armed
    timer, or the rest of a started dispatch.  The dispatch is run to its
    end here; how the requests of several dispatches under way at once
    interleave is left open. *)
Definition fire (t : Timer) : M unit := sendAndMark (timer_msg t).

(** [app.post('/api/schedule-message')]: the text of [scheduled_time] goes
    to the database as it came; [now] is the reading of the clock taken by
    [scheduleMessage]. *)
Definition post_schedule_message (now : Z) (rq : ScheduleRequest) : M ScheduleResponse :=
  try_catch
    (if (rq_phone_number rq =? "")%string
     then ret (Rejected "Missing required fields")
     else
       match rq_scheduled_time rq with
       | TimeMissing => ret (Rejected "Missing required fields")
       | scheduled_time =>
           media <- lift (int4_param (js_or (rq_media_id rq) VNull)) ;;
           time <- match scheduled_time with
                   | TimeLiteral l => ret (timestamp_in l)
                   | _ => throw (DbFailure "invalid input syntax for type timestamp")
                   end ;;
           newMsg <- insert_message (rq_phone_number rq) (rq_message_text rq) media
                                    (Some time) ;;
           scheduleMessage now newMsg ;;;
           ret Scheduled
       end)
    (fun err =>
       console_error "Schedule message error" (error_message err) ;;;
       ret (Rejected (error_message err))).

End Run.

End TimerServer.

(** ** Test data *)

Definition empty_db : Db := mkDb [] [] 1.

Definition world_of (d : Db) : World := mkWorld d [] [] [].

(** A provider that accepts every upload with handle [media-1] and every
    message with the given message id. *)
Definition accepting (messageId : string) : Provider :=
  fun _ c =>
    match c with
    | PostMedia _ _ _ => HttpOk (VObj [("id", VStr "media-1")])
    | PostMessages _ =>
        HttpOk (VObj [("messaging_product", VStr "whatsapp");
                      ("messages", VArr [VObj [("id", VStr messageId)]])])
    end.

(** A provider whose media endpoint rejects every upload. *)
Definition upload_down : Provider :=
  fun _ c =>
    match c with
    | PostMedia _ _ _ => HttpErr "Request failed with status code 400"
    | PostMessages _ =>
        HttpOk (VObj [("messages", VArr [VObj [("id", VStr "wamid.9")]])])
    end.

Definition jpeg : MediaRow := mkMedia 7 "cat.jpg" "image/jpeg" "JFIF".

(** The body of a webhook call carrying one receipt. *)
Definition receipt_body (messageId messageStatus : value) : value :=
  let status := VObj [("id", messageId); ("status", messageStatus)] in
  let change := VObj [("value", VObj [("statuses", VArr [status])])] in
  VObj [("entry", VArr [VObj [("changes", VArr [change])]])].

(** ** The two-phase send *)

(** The media handle an answer of the media endpoint carries:
    [response.data.id], or [null] when the request failed. *)
Definition media_handle (r : HttpResult) : value :=
  match r with
  | HttpOk data =>
      match get_prop data "id" with
      | Ok v => v
      | Throw _ => VNull
      end
  | HttpErr _ => VNull
  end.

Definition upload_of (row : MediaRow) : Call :=
  PostMedia (ml_name row) (ml_type row) (ml_content row).

(** The upload phase fails: the request is rejected or its answer carries
    no handle. *)
Definition upload_fails (provider : Provider) (w : World) (row : MediaRow) : Prop :=
  truthy (media_handle (provider (calls w) (upload_of row))) = false.

Definition photo_msg : Msg := mkMsg 1 "+1555" (Some "hi") (Some 7) 1000 "pending".

Definition photo_db : Db := mkDb [jpeg] [photo_msg] 2.

(** A text message with local id 5, in the given status. *)
Definition text_msg (st : string) : Msg := mkMsg 5 "+1555" (Some "hi") None 1000 st.

Definition text_db (st : string) : Db := mkDb [] [text_msg st] 6.

(** The media row a dispatch works with: the value of [mediaRow] after the
    lookup. *)
Definition media_of (msg : Msg) (d : Db) : option MediaRow :=
  match sm_media_id msg with
  | None => None
  | Some k => if k =? 0 then None else select_media k d
  end.

(** A status written by a dispatch. *)
Definition terminal (st : string) : Prop := st = "sent" \/ st = "failed".

(** A row of [scheduled_messages] before and after the status [st] was
    written to the entries with the id [k]: such an entry keeps every field
    but its status, every other entry is as it was. *)
Definition marked (k : Z) (st : string) (m m' : Msg) : Prop :=
  m' = if sm_id m =? k
       then mkMsg (sm_id m) (sm_phone_number m) (sm_message_text m) (sm_media_id m)
                  (sm_scheduled_time m) st
       else m.

(** How a row [m] of the table stands after a sweep that selected the
    entries with the ids [ids]: untouched or in a terminal status, and in a
    terminal status when its id was selected. *)
Definition settled (ids : list Z) (m m' : Msg) : Prop :=
  (m' = m \/ terminal (sm_status m'))
  /\ (In (sm_id m) ids -> terminal (sm_status m')).

(** A request for 2030-01-01T10:00:00+02:00: the date and time fields read
    as UTC are 1893492000000 ms, the instant is two hours earlier. *)
Definition cairo_time : IsoTime := mkIso 1893492000000 (Some 120).

Definition cairo_request : ScheduleRequest :=
  mkRequest "+1555" (Some "hi") (VStr "") (TimeLiteral cairo_time).

(** The zone of a process that runs at UTC. *)
Definition UTC : Zone := fun wall => wall.

(** India Standard Time, UTC+05:30: what the time-zone database says of
    Asia/Kolkata for every date since 15 October 1945. *)
Definition IST : Zone := fun wall => wall - 330 * ms_per_minute.

(** The same date and time fields without an offset, as the admin page
    sends them. *)
Definition local_request : ScheduleRequest :=
  mkRequest "+1555" (Some "hi") (VStr "") (TimeLiteral (mkIso 1893492000000 None)).

(** A request that names media row 7. *)
Definition photo_request : ScheduleRequest :=
  mkRequest "+1555" (Some "hi") (VStr "7") (TimeLiteral (mkIso 1893492000000 None)).

(** ** Further routes *)

(** What multer hands over for the [mediaFile] field: [file.mimetype] and
    [file.buffer]. *)
Record UploadedFile : Type := mkFile {
  mimetype : string;
  buffer : string
}.

Inductive UploadResponse : Type :=
| Uploaded
| UploadRejected (error : string).

(** [Object.values(WHATSAPP_ALLOWED_TYPES).flat()] *)
Definition allowed_types : list string := flat_map snd WHATSAPP_ALLOWED_TYPES.

(** [INSERT INTO media_library(name,type,content) VALUES($1,$2,$3)];
    [nextval] is the value the sequence behind [media_library.id] gives for
    this insert, and [id] is the primary key. *)
Definition insert_media (nextval : Z) (name type content : string) : M unit :=
  fun w =>
    match select_media nextval (db w) with
    | Some _ => (Throw (DbFailure "duplicate key value violates unique constraint"), w)
    | None =>
        (Ok tt,
         mkWorld (mkDb (media_library (db w) ++ [mkMedia nextval name type content])
                       (scheduled_messages (db w)) (next_id (db w)))
                 (calls w) (errors w) (timers w))
    end.

(** [app.post('/api/upload-media')], the same in both revisions; [name] is
    [req.body.name], empty when the field is missing. *)
Definition post_upload_media (nextval : Z) (file : option UploadedFile) (name : string)
  : M UploadResponse :=
  try_catch
    (match file with
     | None => ret (UploadRejected "Missing file or name")
     | Some f =>
         if (name =? "")%string then ret (UploadRejected "Missing file or name")
         else
           let type := mimetype f in
           if negb (includes allowed_types type)
           then ret (UploadRejected ("Unsupported file type: " ++ type))
           else
             insert_media nextval name type (buffer f) ;;;
             ret Uploaded
     end)
    (fun err =>
       console_error "Upload media error" (error_message err) ;;;
       ret (UploadRejected (error_message err))).

(** [app.get('/webhook')]: the status code and, with 200, the body sent.
    [mode], [token] and [challenge] are the query parameters [hub.mode],
    [hub.verify_token] and [hub.challenge]. *)
Definition get_webhook (WHATSAPP_VERIFY_TOKEN : string) (mode token challenge : value)
  : Z * option value :=
  if truthy mode && truthy token then
    if is_str mode "subscribe" && is_str token WHATSAPP_VERIFY_TOKEN
    then (200, Some challenge)
    else (403, None)
  else (400, None).

(** [app.get('/api/check-pending')]: the [success] field of the answer. *)
Definition get_check_pending (provider : Provider) (nowUTC : Z) : M bool :=
  Server.processDueMessages provider nowUTC ;;;
  ret true.

(** ** Relations between tables *)

(** [m'] is [m], or [m] with a terminal status written to it, which happens
    only to entries whose id satisfies [P]. *)
Definition touched (P : Z -> Prop) (m m' : Msg) : Prop :=
  m' = m \/ (P (sm_id m) /\ exists st, terminal st /\ m' = set_status st m).

(** From [d] to [d'] nothing changed but the status of entries whose id
    satisfies [P]: same media library, same sequence, the same entries in
    the same order. *)
Definition status_only (P : Z -> Prop) (d d' : Db) : Prop :=
  media_library d' = media_library d
  /\ next_id d' = next_id d
  /\ Forall2 (touched P) (scheduled_messages d) (scheduled_messages d').

(** Every stored media row has an allow-listed type. *)
Definition media_allowed (d : Db) : Prop :=
  forall r, In r (media_library d) -> In (ml_type r) allowed_types.

(** Every [media_id] names a row of the media library. *)
Definition refs_resolve (d : Db) : Prop :=
  forall m k, In m (scheduled_messages d) -> sm_media_id m = Some k ->
              select_media k d <> None.

(** The ids of the entries are pairwise distinct and below the sequence. *)
Definition ids_fresh (d : Db) : Prop :=
  NoDup (map sm_id (scheduled_messages d))
  /\ forall m, In m (scheduled_messages d) -> sm_id m < next_id d.

(** Every status is one of the three the server writes. *)
Definition statuses_known (d : Db) : Prop :=
  forall m, In m (scheduled_messages d) ->
            sm_status m = "pending" \/ terminal (sm_status m).

(** [resp.data.messages?.[0]?.id] of an answer of the messages endpoint;
    [undefined] stands for a failed request too. *)
Definition message_id_of (r : HttpResult) : value :=
  match r with
  | HttpOk data =>
      match get_prop data "messages" with
      | Ok messages => opt_prop (opt_index0 messages) "id"
      | Throw _ => VUndef
      end
  | HttpErr _ => VUndef
  end.

(** The body of a webhook call carrying the given receipts in one change. *)
Definition statuses_body (statuses : list value) : value :=
  VObj [("entry",
         VArr [VObj [("changes",
                      VArr [VObj [("value", VObj [("statuses", VArr statuses)])]])]])].

(** A provider that accepts every message without naming it. *)
Definition anonymous : Provider := fun _ _ => HttpOk (VObj []).

(** The tables after the media row was stored. *)
Definition with_media (row : MediaRow) (d : Db) : Db :=
  mkDb (media_library d ++ [row]) (scheduled_messages d) (next_id d).

Definition png_file : UploadedFile := mkFile "image/png" "PNG".

(** The tables after an insert into [scheduled_messages] was attempted:
    the sequence has moved on, and [row], if any, was appended. *)
Definition with_message (row : option Msg) (d : Db) : Db :=
  mkDb (media_library d)
       (match row with
        | Some r => scheduled_messages d ++ [r]
        | None => scheduled_messages d
        end)
       (next_id d + 1).

(** A new entry as the insert builds it from the tables [d]: it takes the
    next id, is pending, and names an existing media row if it names one. *)
Definition new_entry (d : Db) (row : Msg) : Prop :=
  sm_id row = next_id d
  /\ sm_status row = "pending"
  /\ (forall k, sm_media_id row = Some k -> select_media k d <> None).

(** The ways the handlers change the tables, chained: statuses written,
    an insert attempted, a media row stored. *)
Inductive evolves : Db -> Db -> Prop :=
| evolves_refl (d : Db) : evolves d d
| evolves_status (d d' d'' : Db) :
    status_only (fun _ => True) d d' -> evolves d' d'' -> evolves d d''
| evolves_skip (d d'' : Db) :
    evolves (with_message None d) d'' -> evolves d d''
| evolves_insert (d : Db) (row : Msg) (d'' : Db) :
    new_entry d row -> evolves (with_message (Some row) d) d'' -> evolves d d''
| evolves_upload (d : Db) (r : MediaRow) (d'' : Db) :
    select_media (ml_id r) d = None -> In (ml_type r) allowed_types ->
    evolves (with_media r d) d'' -> evolves d d''.

(** What a sweep, a receipt and a timer dispatch leave alone: everything but
    the statuses of entries whose id satisfies [P], the requests made and
    the error log. *)
Definition quiet (P : Z -> Prop) (w w' : World) : Prop :=
  status_only P (db w) (db w') /\ timers w' = timers w.

(** ** Runs of the server *)

(** What can happen to a running server: the requests of [server.js], those
    of the timer-driven revision, and the event loop running a piece of
    work it owes.  Each event carries what the runtime supplies to it. *)
Inductive Event : Type :=
| Schedule (Asia_Kolkata : Zone) (rq : ScheduleRequest)
| ScheduleWithTimer (local : Zone) (now : Z) (rq : ScheduleRequest)
| Upload (nextval : Z) (file : option UploadedFile) (name : string)
| CheckPending (nowUTC : Z)
| Receipts (body : value)
| Startup (local : Zone) (now : Z) (clock : nat -> Z)
| TimerFires (t : Timer).

Definition handle (provider : Provider) (e : Event) (w : World) : World :=
  match e with
  | Schedule Asia_Kolkata rq => snd (Server.post_schedule_message Asia_Kolkata rq w)
  | ScheduleWithTimer local now rq =>
      snd (TimerServer.post_schedule_message local now rq w)
  | Upload nextval file name => snd (post_upload_media nextval file name w)
  | CheckPending nowUTC => snd (get_check_pending provider nowUTC w)
  | Receipts body => snd (Server.post_webhook body w)
  | Startup local now clock => snd (TimerServer.initPendingMessages local now clock w)
  | TimerFires t => snd (TimerServer.fire provider t w)
  end.

Definition run (provider : Provider) (events : list Event) (w : World) : World :=
  fold_left (fun w e => handle provider e w) events w.

(** A short life of the server: a media upload, two scheduling requests for
    it, a sweep and a receipt. *)
Definition sample_run : list Event :=
  [ Upload 1 (Some png_file) "logo";
    Schedule IST (mkRequest "+1555" (Some "hi") (VStr "1")
                    (TimeLiteral (mkIso 1893492000000 None)));
    ScheduleWithTimer UTC 500
      (mkRequest "+1666" None (VStr "") (TimeLiteral (mkIso 400 None)));
    CheckPending 1893492000000;
    Receipts (receipt_body (VStr "1") (VStr "failed")) ].


(** The requests a send makes for a message with the given media row. *)
Definition requests_of (provider : Provider) (w : World) (to : string)
  (text : option string) (mediaRow : option MediaRow) : list Call :=
  match mediaRow with
  | None => [PostMessages (text_payload to text)]
  | Some row =>
      let mediaId := media_handle (provider (calls w) (upload_of row)) in
      upload_of row
      :: (if truthy mediaId
          then [PostMessages (media_payload to text
                                (getWhatsAppPayloadType (ml_type row)) mediaId)]
          else [])
  end.

(** What a receipt asks for: the status to write and the id to write it
    to, or the error reading it throws. *)
Definition receipt_op (status : value) : Res (string * option Z) :=
  match get_prop status "id" with
  | Throw e => Throw e
  | Ok messageId =>
      match get_prop status "status" with
      | Throw e => Throw e
      | Ok messageStatus =>
          match int4_param messageId with
          | Throw e => Throw e
          | Ok key =>
              Ok (if is_str messageStatus "delivered" || is_str messageStatus "read"
                  then "sent" else "failed", key)
          end
      end
  end.

(** The receipts of a list that are read before the first one that throws. *)
Fixpoint applied (statuses : list value) : list (string * option Z) :=
  match statuses with
  | [] => []
  | s :: rest =>
      match receipt_op s with
      | Ok op => op :: applied rest
      | Throw _ => []
      end
  end.

(** One status write on one entry. *)
Definition write_row (m : Msg) (op : string * option Z) : Msg :=
  match snd op with
  | Some k => if sm_id m =? k then set_status (fst op) m else m
  | None => m
  end.

(** The status writes [ops], in order, on the tables. *)
Definition write_all (ops : list (string * option Z)) (d : Db) : Db :=
  mkDb (media_library d)
       (map (fun m => fold_left write_row ops m) (scheduled_messages d))
       (next_id d).

(** What both scheduling handlers and the database ask of a request before
    an entry is stored: a recipient, a date-time [l], a [media_id] that
    reads as NULL or as an integer ([media]), naming a stored media row. *)
Definition acceptable (rq : ScheduleRequest) (d : Db) (l : IsoTime) (media : option Z)
  : Prop :=
  rq_phone_number rq <> ""
  /\ rq_scheduled_time rq = TimeLiteral l
  /\ int4_param (js_or (rq_media_id rq) VNull) = Ok media
  /\ (forall k, media = Some k -> select_media k d <> None).

(** The entry stored for an acceptable request, with the given timestamp. *)
Definition entry_for (rq : ScheduleRequest) (d : Db) (media : option Z) (time : Z) : Msg :=
  mkMsg (next_id d) (rq_phone_number rq) (rq_message_text rq) media time "pending".

(** The four kinds of media message. *)
Definition categories : list string := ["image"; "video"; "audio"; "document"].

(** What [scheduleMessage], reading [now] from the clock in a process whose
    zone is [local], hands to the event loop for [msg]: the dispatch itself
    when the scheduled time has come, a timer for the time that remains
    when that is a delay the runtime takes, and a timer of one millisecond
    when it is longer. *)
Definition hands_over (local : Zone) (now : Z) (msg : Msg) (t : Timer) : Prop :=
  timer_msg t = msg
  /\ (local (sm_scheduled_time msg) <= now -> t = Started msg)
  /\ (now < local (sm_scheduled_time msg) <= now + TIMEOUT_MAX ->
      t = Armed (local (sm_scheduled_time msg) - now) msg)
  /\ (now + TIMEOUT_MAX < local (sm_scheduled_time msg) -> t = Armed 1 msg).

(** ** The admin page *)

(** The characters the recipients field is split at: [/[\n,]+/]. *)
Definition is_separator (c : ascii) : bool :=
  let n := nat_of_ascii c in
  Nat.eqb n 10 || Nat.eqb n 44.

Fixpoint drop_spaces (s : list ascii) : list ascii :=
  match s with
  | c :: rest => if is_space c then drop_spaces rest else s
  | [] => []
  end.

(** [s.trim()], for the white space of ASCII. *)
Definition trim_chars (s : list ascii) : list ascii :=
  rev (drop_spaces (rev (drop_spaces s))).

(** [s.split(/[\n,]+/)]: [piece] holds the characters of the current piece,
    last first, and [in_run] tells that the previous character was a
    separator. *)
Fixpoint split_runs (piece : list ascii) (in_run : bool) (s : list ascii)
  : list (list ascii) :=
  match s with
  | [] => [rev piece]
  | c :: rest =>
      if is_separator c
      then (if in_run then split_runs [] true rest
            else rev piece :: split_runs [] true rest)
      else split_runs (c :: piece) false rest
  end.

Definition is_empty (s : list ascii) : bool :=
  match s with
  | [] => true
  | _ :: _ => false
  end.

(** [value.trim().split(/[\n,]+/).map(p => p.trim()).filter(p => p)]: the
    recipients the schedule form sends one request for. *)
Definition phones_of (value : string) : list string :=
  map string_of_list_ascii
      (filter (fun p => negb (is_empty p))
              (map trim_chars
                   (split_runs [] false (trim_chars (list_ascii_of_string value))))).

(** Two recipients as typed: a comma, then a line break. *)
Definition typed_recipients : string :=
  " +1555 ," ++ String (ascii_of_nat 10) "+1666 ".

(** ** Rows removed by hand *)

(** No handler deletes a row; whoever administers the tables may (the spec
    leaves retention and deletion to them).
    [DELETE FROM scheduled_messages WHERE id=$1] always goes through. *)
Definition delete_message (k : Z) (d : Db) : Db :=
  mkDb (media_library d)
       (filter (fun m => negb (sm_id m =? k)) (scheduled_messages d))
       (next_id d).

(** [DELETE FROM media_library WHERE id=$1] is refused, by the foreign key
    of [scheduled_messages.media_id], for as long as an entry names the
    row. *)
Definition delete_media (k : Z) (d : Db) : option Db :=
  if existsb (fun m => match sm_media_id m with
                       | Some j => j =? k
                       | None => false
                       end)
             (scheduled_messages d)
  then None
  else Some (mkDb (filter (fun r => negb (ml_id r =? k)) (media_library d))
                  (scheduled_messages d) (next_id d)).

(** A second entry, stored after the text message, that names media row 7. *)
Definition late_photo : Msg := mkMsg 6 "+1666" (Some "look") (Some 7) 1000 "pending".

Definition queue_db : Db := mkDb [jpeg] [text_msg "pending"; late_photo] 7.




(** * Properties *)

Lemma uploadMediaToWhatsApp_spec (provider : Provider) (w : World) (row : MediaRow) :
  exists w',
    uploadMediaToWhatsApp provider (ml_name row) (ml_type row) (ml_content row) w
      = (Ok (media_handle (provider (calls w) (upload_of row))), w')
    /\ db w' = db w /\ calls w' = (calls w ++ [upload_of row])%list /\ timers w' = timers w.
Proof.
  unfold uploadMediaToWhatsApp, try_catch, bind, axios_post, lift, upload_of,
    media_handle, console_error, ret.
  destruct (provider (calls w) _) as [data | msg]; simpl.
  - destruct (get_prop data "id"); simpl; eexists; repeat split; reflexivity.
  - eexists; repeat split; reflexivity.
Qed.

Lemma resolve_media_some (w : World) (msg : Msg) (k : Z) (row : MediaRow) :
  sm_media_id msg = Some k -> k <> 0 -> select_media k (db w) = Some row ->
  resolve_media msg w = (Ok (Some row), w).
Proof.
  intros Hk Hnz Hsel. unfold resolve_media. rewrite Hk.
  destruct (k =? 0) eqn:E; [apply Z.eqb_eq in E; contradiction|].
  unfold bind, get_db, ret. now rewrite Hsel.
Qed.

Lemma server_send_upload_fails (provider : Provider) (w : World)
  (to : string) (text : option string) (row : MediaRow) :
  upload_fails provider w row ->
  exists w',
    Server.sendWhatsAppMessage provider to text (Some row) w = (Ok VNull, w')
    /\ db w' = db w /\ calls w' = (calls w ++ [upload_of row])%list.
Proof.
  intros Hfail.
  destruct (uploadMediaToWhatsApp_spec provider w row) as (w1 & Hup & Hdb & Hcalls & _).
  unfold Server.sendWhatsAppMessage, try_catch, bind.
  rewrite Hup. unfold upload_fails in Hfail. rewrite Hfail.
  unfold throw, console_error, ret. simpl.
  eexists; repeat split; simpl; assumption.
Qed.

Lemma timer_send_upload_fails (provider : Provider) (w : World)
  (to : string) (text : option string) (row : MediaRow) :
  upload_fails provider w row ->
  exists w',
    TimerServer.sendWhatsAppMessage provider to text (Some row) w = (Ok false, w')
    /\ db w' = db w /\ calls w' = (calls w ++ [upload_of row])%list.
Proof.
  intros Hfail.
  destruct (uploadMediaToWhatsApp_spec provider w row) as (w1 & Hup & Hdb & Hcalls & _).
  unfold TimerServer.sendWhatsAppMessage, try_catch, bind.
  rewrite Hup. unfold upload_fails in Hfail. rewrite Hfail.
  unfold throw, console_error, ret. simpl.
  eexists; repeat split; simpl; assumption.
Qed.

(** What [UPDATE scheduled_messages SET status=$1 WHERE id=$2] leaves in the
    table, row by row. *)
Lemma update_status_writes (st : string) (k : Z) (d : Db) :
  Forall2 (marked k st) (scheduled_messages d)
          (scheduled_messages (update_status st (Some k) d)).
Proof.
  unfold update_status, marked, set_status. simpl.
  induction (scheduled_messages d) as [| m l IH]; simpl; constructor; [| exact IH].
  destruct (sm_id m =? k); reflexivity.
Qed.

Lemma marked_status (k : Z) (st : string) (l l' : list Msg) :
  Forall2 (marked k st) l l' ->
  forall m', In m' l' -> sm_id m' = k -> sm_status m' = st.
Proof.
  induction 1 as [| m m0 l l' Hm _ IH]; intros m' Hin Hid; [contradiction |].
  destruct Hin as [<- | Hin]; [| now apply IH].
  unfold marked in Hm. destruct (Z.eqb_spec (sm_id m) k) as [Heq | Hne].
  - subst m0. reflexivity.
  - subst m0. contradiction.
Qed.

Lemma marked_entry (k : Z) (st : string) (l l' : list Msg) (m : Msg) :
  Forall2 (marked k st) l l' -> In m l -> sm_id m = k ->
  In (mkMsg (sm_id m) (sm_phone_number m) (sm_message_text m) (sm_media_id m)
            (sm_scheduled_time m) st) l'.
Proof.
  induction 1 as [| m0 m0' l l' Hm _ IH]; intros Hin Hid; [contradiction |].
  destruct Hin as [-> | Hin]; [left | right; now apply IH].
  unfold marked in Hm.
  destruct (Z.eqb_spec (sm_id m) k); [now symmetry | contradiction].
Qed.

(** C7: for a message whose media row is found, when the upload phase fails
    the only request made to the provider is that upload (no message is
    submitted) and [failed] is written to the entry: afterwards every entry
    with the message's id has status [failed] and is otherwise as it was,
    and no other entry has changed.  This holds for the dispatch of the
    due-sweep and for the dispatch of the timers. *)
Theorem C7_failed_upload_never_submits (provider : Provider) (w : World)
  (msg : Msg) (k : Z) (row : MediaRow) :
  sm_media_id msg = Some k -> k <> 0 -> select_media k (db w) = Some row ->
  upload_fails provider w row ->
  forall w',
    w' = snd (Server.process_one provider msg w)
    \/ w' = snd (TimerServer.sendAndMark provider msg w) ->
    calls w' = (calls w ++ [upload_of row])%list
    /\ db w' = update_status "failed" (Some (sm_id msg)) (db w)
    /\ Forall2 (marked (sm_id msg) "failed")
               (scheduled_messages (db w)) (scheduled_messages (db w'))
    /\ (forall m', In m' (scheduled_messages (db w')) -> sm_id m' = sm_id msg ->
                   sm_status m' = "failed")
    /\ (In msg (scheduled_messages (db w)) ->
        In (mkMsg (sm_id msg) (sm_phone_number msg) (sm_message_text msg)
                  (sm_media_id msg) (sm_scheduled_time msg) "failed")
           (scheduled_messages (db w'))).
Proof.
  intros Hk Hnz Hsel Hfail w' Hw'.
  assert (Hrun : calls w' = (calls w ++ [upload_of row])%list
                 /\ db w' = update_status "failed" (Some (sm_id msg)) (db w)).
  { destruct Hw' as [-> | ->].
    - destruct (server_send_upload_fails provider w (sm_phone_number msg)
                  (sm_message_text msg) row Hfail) as (w1 & Hsend & Hdb & Hcalls).
      unfold Server.process_one, try_catch, bind.
      rewrite (resolve_media_some w msg k row Hk Hnz Hsel), Hsend.
      simpl. now rewrite Hdb, Hcalls.
    - destruct (timer_send_upload_fails provider w (sm_phone_number msg)
                  (sm_message_text msg) row Hfail) as (w1 & Hsend & Hdb & Hcalls).
      unfold TimerServer.sendAndMark, try_catch, bind.
      rewrite (resolve_media_some w msg k row Hk Hnz Hsel), Hsend.
      simpl. now rewrite Hdb, Hcalls. }
  destruct Hrun as [Hcalls Hdb].
  assert (Hrows : Forall2 (marked (sm_id msg) "failed")
                          (scheduled_messages (db w)) (scheduled_messages (db w')))
    by (rewrite Hdb; apply update_status_writes).
  split; [exact Hcalls |]. split; [exact Hdb |]. split; [exact Hrows |].
  split.
  - apply (marked_status _ _ _ _ Hrows).
  - intros Hin. now apply (marked_entry _ _ _ _ msg Hrows).
Qed.

Lemma C7_witness :
  (calls (snd (Server.process_one upload_down photo_msg (world_of photo_db)))
     = [PostMedia "cat.jpg" "image/jpeg" "JFIF"]
   /\ db (snd (Server.process_one upload_down photo_msg (world_of photo_db)))
      = mkDb [jpeg] [mkMsg 1 "+1555" (Some "hi") (Some 7) 1000 "failed"] 2)
  /\ (calls (snd (TimerServer.sendAndMark upload_down photo_msg (world_of photo_db)))
        = [PostMedia "cat.jpg" "image/jpeg" "JFIF"]
      /\ In (mkMsg 1 "+1555" (Some "hi") (Some 7) 1000 "failed")
            (scheduled_messages
               (db (snd (TimerServer.sendAndMark upload_down photo_msg
                           (world_of photo_db)))))).
Proof.
  pose proof (C7_failed_upload_never_submits upload_down (world_of photo_db) photo_msg 7
                jpeg eq_refl ltac:(lia) eq_refl eq_refl) as Hall.
  split.
  - destruct (Hall _ (or_introl eq_refl)) as (Hcalls & Hdb & _).
    split; [exact Hcalls | rewrite Hdb; reflexivity].
  - destruct (Hall _ (or_intror eq_refl)) as (Hcalls & _ & _ & _ & Hin).
    split; [exact Hcalls | apply Hin; simpl; auto].
Defined.

(** C10: whatever the body of the webhook call and whatever the state, the
    handler answers 200; when the processing of the receipts throws, the
    error is written with [console.error] and nothing else changes after the
    point of the throw. *)
Theorem C10_webhook_answers_200 (body : value) (w : World) :
  fst (Server.post_webhook body w) = Ok 200
  /\ (forall e w1,
        Server.process_receipts body w = (Throw e, w1) ->
        snd (Server.post_webhook body w)
        = mkWorld (db w1) (calls w1)
                  (errors w1 ++ [("Error processing webhook", error_message e)])
                  (timers w1)).
Proof.
  unfold Server.post_webhook, try_catch, bind, ret, console_error.
  destruct (Server.process_receipts body w) as [[u | e] w1]; simpl.
  - split; [reflexivity | intros e w2 H; discriminate H].
  - split; [reflexivity | intros e' w2 H; now inversion H].
Qed.

Lemma C10_witness :
  fst (Server.post_webhook (receipt_body (VStr "wamid.123") (VStr "delivered"))
         (world_of photo_db)) = Ok 200
  /\ snd (Server.post_webhook (receipt_body (VStr "wamid.123") (VStr "delivered"))
            (world_of photo_db))
     = mkWorld photo_db [] [("Error processing webhook",
                             "invalid input syntax for type integer")] [].
Proof.
  pose proof (C10_webhook_answers_200
                (receipt_body (VStr "wamid.123") (VStr "delivered"))
                (world_of photo_db)) as [H200 Hlog].
  split; [exact H200 |].
  apply (Hlog (DbFailure "invalid input syntax for type integer") (world_of photo_db)).
  reflexivity.
Defined.

(** ** Classification of media types *)


Lemma server_send_with_handle (provider : Provider) (w : World)
  (to : string) (text : option string) (row : MediaRow) :
  truthy (media_handle (provider (calls w) (upload_of row))) = true ->
  calls (snd (Server.sendWhatsAppMessage provider to text (Some row) w))
  = (calls w ++
     [upload_of row;
      PostMessages (media_payload to text (getWhatsAppPayloadType (ml_type row))
                      (media_handle (provider (calls w) (upload_of row))))])%list.
Proof.
  intros Hok.
  destruct (uploadMediaToWhatsApp_spec provider w row) as (w1 & Hup & Hdb & Hcalls & _).
  unfold Server.sendWhatsAppMessage, try_catch, bind.
  rewrite Hup, Hok. unfold ret at 1. unfold axios_post. rewrite Hcalls.
  set (payload := media_payload _ _ _ _).
  destruct (provider _ (PostMessages payload)) as [data | msg]; simpl.
  - destruct (get_prop data "messages"); simpl;
      now rewrite <- app_assoc.
  - now rewrite <- app_assoc.
Qed.

(** ** Receipts *)

Lemma for_of_one {A : Type} (x : A) (body : A -> M unit) (w : World) :
  for_of [x] body w = body x w.
Proof.
  simpl. unfold bind, ret. now destruct (body x w) as [[[] | e] w'].
Qed.


Lemma set_status_same (m : Msg) : set_status (sm_status m) m = m.
Proof. now destruct m. Qed.



(** C1, on the code: the receipt's message id is compared with the local
    [id] column.  A receipt naming the id the provider returned for a
    dispatched entry ([wamid.1]) is no integer: the statement is rejected,
    the error is logged and the entry is not found.  A receipt whose id
    reads as the integer 5 is applied to the entry with local id 5, which
    was never submitted: its status goes from [pending] to [sent]. *)
Theorem C1_receipt_matches_local_id :
  (let dispatched := snd (Server.processDueMessages (accepting "wamid.1") 2000
                            (world_of (text_db "pending"))) in
   db dispatched = text_db "sent"
   /\ snd (Server.post_webhook (receipt_body (VStr "wamid.1") (VStr "failed")) dispatched)
      = mkWorld (text_db "sent") (calls dispatched)
          [("Error processing webhook", "invalid input syntax for type integer")] [])
  /\ Server.post_webhook (receipt_body (VStr "5") (VStr "delivered"))
       (world_of (text_db "pending"))
     = (Ok 200, world_of (text_db "sent")).
Proof. split; [split |]; reflexivity. Qed.




(** ** Dispatch *)

Lemma resolve_media_spec (msg : Msg) (w : World) :
  resolve_media msg w = (Ok (media_of msg (db w)), w).
Proof.
  unfold resolve_media, media_of.
  destruct (sm_media_id msg) as [k |]; [| reflexivity].
  destruct (k =? 0); reflexivity.
Qed.

(** The send never throws and touches neither the tables nor the timers. *)
Ltac close_send :=
  do 2 eexists; split; [reflexivity | split; simpl; congruence].

Lemma server_send_total (provider : Provider) (to : string) (text : option string)
  (mediaRow : option MediaRow) (w : World) :
  exists v w',
    Server.sendWhatsAppMessage provider to text mediaRow w = (Ok v, w')
    /\ db w' = db w /\ timers w' = timers w.
Proof.
  unfold Server.sendWhatsAppMessage, try_catch, bind.
  destruct mediaRow as [row |].
  - destruct (uploadMediaToWhatsApp_spec provider w row) as (w1 & Hup & Hdb & _ & Htm).
    rewrite Hup. clear Hup.
    generalize (media_handle (provider (calls w) (upload_of row))). intros mediaId.
    destruct (truthy mediaId).
    + unfold ret at 1. unfold axios_post.
      destruct (provider _ _) as [data | msg]; simpl.
      * destruct (get_prop data "messages"); simpl; close_send.
      * close_send.
    + simpl. close_send.
  - unfold ret at 1. unfold axios_post.
    destruct (provider _ _) as [data | msg]; simpl.
    + destruct (get_prop data "messages"); simpl; close_send.
    + close_send.
Qed.

Lemma server_process_one_spec (provider : Provider) (msg : Msg) (w : World) :
  forall messageId w1,
    Server.sendWhatsAppMessage provider (sm_phone_number msg) (sm_message_text msg)
      (media_of msg (db w)) w = (Ok messageId, w1) ->
    Server.process_one provider msg w
    = (Ok tt,
       mkWorld (update_status (if truthy messageId then "sent" else "failed")
                              (Some (sm_id msg)) (db w1))
               (calls w1) (errors w1) (timers w1)).
Proof.
  intros messageId w1 Hsend.
  unfold Server.process_one, try_catch, bind.
  now rewrite resolve_media_spec, Hsend.
Qed.

Lemma server_process_one_calls (provider : Provider) (msg : Msg) (w : World) :
  calls (snd (Server.process_one provider msg w))
  = calls (snd (Server.sendWhatsAppMessage provider (sm_phone_number msg)
                  (sm_message_text msg) (media_of msg (db w)) w)).
Proof.
  destruct (server_send_total provider (sm_phone_number msg) (sm_message_text msg)
              (media_of msg (db w)) w) as (v & w1 & Hsend & _).
  now rewrite (server_process_one_spec provider msg w v w1 Hsend), Hsend.
Qed.

(** A loop keeps the media library when each of its turns does. *)
Lemma for_of_media {A : Type} (body : A -> M unit) :
  (forall x w, media_library (db (snd (body x w))) = media_library (db w)) ->
  forall xs w, media_library (db (snd (for_of xs body w))) = media_library (db w).
Proof.
  intros Hbody xs. induction xs as [| x rest IH]; intros w; [reflexivity |].
  simpl. unfold bind. specialize (Hbody x w).
  destruct (body x w) as [[u | e] w1]; simpl in *.
  - now rewrite IH.
  - exact Hbody.
Qed.

Lemma update_status_media (st : string) (key : option Z) (d : Db) :
  media_library (update_status st key d) = media_library d.
Proof. now destruct key. Qed.

Lemma server_process_one_media (provider : Provider) (msg : Msg) (w : World) :
  media_library (db (snd (Server.process_one provider msg w))) = media_library (db w).
Proof.
  destruct (server_send_total provider (sm_phone_number msg) (sm_message_text msg)
              (media_of msg (db w)) w) as (v & w1 & Hsend & Hdb & _).
  rewrite (server_process_one_spec provider msg w v w1 Hsend).
  cbn [snd db]. now rewrite update_status_media, Hdb.
Qed.

Lemma server_sweep_media (provider : Provider) (now : Z) (w : World) :
  media_library (db (snd (Server.processDueMessages provider now w)))
  = media_library (db w).
Proof.
  unfold Server.processDueMessages, try_catch, bind, get_db.
  pose proof (for_of_media (Server.process_one provider)
                (server_process_one_media provider) (select_due now (db w)) w) as Hloop.
  destruct (for_of _ _ w) as [[u | e] w1]; exact Hloop.
Qed.

Lemma webhook_media (body : value) (w : World) :
  media_library (db (snd (Server.post_webhook body w))) = media_library (db w).
Proof.
  assert (Hstatus : forall s w0,
             media_library (db (snd (Server.process_status s w0))) = media_library (db w0)).
  { intros s w0. unfold Server.process_status, bind, lift, modify_db.
    destruct (get_prop s "id"); [| reflexivity].
    destruct (get_prop s "status"); [| reflexivity].
    destruct (int4_param _); [| reflexivity].
    simpl. apply update_status_media. }
  assert (Hchange : forall c w0,
             media_library (db (snd (Server.process_change c w0))) = media_library (db w0)).
  { intros c w0. unfold Server.process_change, bind, lift.
    destruct (get_prop c "value") as [v |]; [| reflexivity].
    destruct (get_prop v "statuses") as [s0 |]; [| reflexivity].
    destruct (iterate _) as [l |]; [| reflexivity].
    now apply for_of_media. }
  assert (Hentry : forall e w0,
             media_library (db (snd (Server.process_entry e w0))) = media_library (db w0)).
  { intros e w0. unfold Server.process_entry, bind, lift.
    destruct (get_prop e "changes") as [c0 |]; [| reflexivity].
    destruct (iterate _) as [l |]; [| reflexivity].
    now apply for_of_media. }
  unfold Server.post_webhook, try_catch, bind, ret, console_error.
  assert (Hall : media_library (db (snd (Server.process_receipts body w)))
                 = media_library (db w)).
  { unfold Server.process_receipts, bind, lift.
    destruct (get_prop body "entry") as [e0 |]; [| reflexivity].
    destruct (iterate _) as [l |]; [| reflexivity].
    now apply for_of_media. }
  destruct (Server.process_receipts body w) as [[u | e] w1]; exact Hall.
Qed.

Lemma server_schedule_rejects_dangling (zone : Zone) (rq : ScheduleRequest) (w : World)
  (k : Z) :
  int4_param (js_or (rq_media_id rq) VNull) = Ok (Some k) ->
  select_media k (db w) = None ->
  (exists error, fst (Server.post_schedule_message zone rq w) = Ok (Rejected error))
  /\ scheduled_messages (db (snd (Server.post_schedule_message zone rq w)))
     = scheduled_messages (db w)
  /\ calls (snd (Server.post_schedule_message zone rq w)) = calls w.
Proof.
  intros Hkey Hnone. unfold Server.post_schedule_message, try_catch.
  destruct (rq_phone_number rq =? "")%string; [simpl; eauto |].
  destruct (rq_scheduled_time rq) as [| | l]; [simpl; eauto | |];
    unfold bind, lift; rewrite Hkey; unfold insert_message; simpl;
    try rewrite Hnone; simpl; eauto.
Qed.




(** ** Sweeps and timers on one entry *)

Lemma server_process_one_marks (provider : Provider) (msg : Msg) (w : World) :
  exists st w',
    Server.process_one provider msg w = (Ok tt, w')
    /\ terminal st
    /\ db w' = update_status st (Some (sm_id msg)) (db w).
Proof.
  destruct (server_send_total provider (sm_phone_number msg) (sm_message_text msg)
              (media_of msg (db w)) w) as (v & w1 & Hsend & Hdb & _).
  rewrite (server_process_one_spec provider msg w v w1 Hsend).
  exists (if truthy v then "sent" else "failed"). eexists.
  split; [reflexivity |]. split.
  - unfold terminal. destruct (truthy v); auto.
  - simpl. now rewrite Hdb.
Qed.

Lemma settled_refl (l : list Msg) : Forall2 (settled []) l l.
Proof.
  induction l as [| m l IH]; constructor; [| exact IH].
  split; [now left | intros []].
Qed.

Lemma settled_step (st : string) (k : Z) (ids : list Z) (m m' : Msg) :
  terminal st ->
  settled ids (if sm_id m =? k then set_status st m else m) m' ->
  settled (k :: ids) m m'.
Proof.
  intros Hst [Hsame Hsel]. destruct (sm_id m =? k) eqn:E.
  - apply Z.eqb_eq in E.
    assert (Hterm : terminal (sm_status m'))
      by (destruct Hsame as [-> | H]; [exact Hst | exact H]).
    split; [now right | intros _; exact Hterm].
  - apply Z.eqb_neq in E. split; [exact Hsame |].
    intros [Heq | Hin]; [congruence | now apply Hsel].
Qed.

Lemma sweep_settles (provider : Provider) (rows : list Msg) :
  forall w, exists w',
    for_of rows (Server.process_one provider) w = (Ok tt, w')
    /\ Forall2 (settled (map sm_id rows))
               (scheduled_messages (db w)) (scheduled_messages (db w')).
Proof.
  induction rows as [| msg rest IH]; intros w.
  - exists w. split; [reflexivity | apply settled_refl].
  - destruct (server_process_one_marks provider msg w) as (st & w1 & Hone & Hst & Hdb).
    destruct (IH w1) as (w' & Hrest & Hall).
    exists w'. split.
    + simpl. unfold bind. now rewrite Hone.
    + rewrite Hdb in Hall. simpl in Hall.
      revert Hall. generalize (scheduled_messages (db w')).
      induction (scheduled_messages (db w)) as [| m l IHl]; intros l' Hall;
        inversion Hall; subst; constructor.
      * now apply (settled_step st).
      * now apply IHl.
Qed.

Lemma settled_none_due (now now' : Z) (ids : list Z) (l l' : list Msg) :
  now' <= now ->
  Forall2 (settled ids) l l' ->
  (forall m, In m l -> sm_status m = "pending" -> sm_scheduled_time m <= now ->
             In (sm_id m) ids) ->
  filter (fun m => (sm_status m =? "pending")%string && (sm_scheduled_time m <=? now')) l'
  = [].
Proof.
  intros Hle Hall. induction Hall as [| m m' l l' [Hsame Hsel] Hall IH]; intros Hids.
  - reflexivity.
  - simpl. rewrite IH by (intros x Hx; apply Hids; now right).
    destruct ((sm_status m' =? "pending")%string && (sm_scheduled_time m' <=? now')) eqn:E;
      [| reflexivity].
    apply andb_true_iff in E. destruct E as [Hp Hd].
    apply String.eqb_eq in Hp. apply Z.leb_le in Hd.
    assert (Hnot : ~ terminal (sm_status m'))
      by (rewrite Hp; intros [H | H]; discriminate H).
    destruct Hsame as [-> | Hterm]; [| contradiction].
    exfalso. apply Hnot, Hsel, Hids; [now left | assumption | lia].
Qed.

Lemma select_due_ids (now : Z) (d : Db) (m : Msg) :
  In m (scheduled_messages d) -> sm_status m = "pending" -> sm_scheduled_time m <= now ->
  In (sm_id m) (map sm_id (select_due now d)).
Proof.
  intros Hin Hp Hd. apply in_map. apply filter_In. split; [assumption |].
  apply andb_true_iff. split; [now apply String.eqb_eq | now apply Z.leb_le].
Qed.

Lemma server_sweep_spec (provider : Provider) (now : Z) (w : World) :
  exists w',
    Server.processDueMessages provider now w = (Ok tt, w')
    /\ Forall2 (settled (map sm_id (select_due now (db w))))
               (scheduled_messages (db w)) (scheduled_messages (db w')).
Proof.
  destruct (sweep_settles provider (select_due now (db w)) w) as (w' & Hrun & Hall).
  exists w'. split; [| exact Hall].
  unfold Server.processDueMessages, try_catch, bind, get_db. now rewrite Hrun.
Qed.

(** Every send makes a request to the provider. *)
Lemma server_send_calls (provider : Provider) (to : string) (text : option string)
  (mediaRow : option MediaRow) (w : World) :
  exists c extra,
    calls (snd (Server.sendWhatsAppMessage provider to text mediaRow w))
    = (calls w ++ c :: extra)%list.
Proof.
  unfold Server.sendWhatsAppMessage, try_catch, bind.
  destruct mediaRow as [row |].
  - destruct (uploadMediaToWhatsApp_spec provider w row) as (w1 & Hup & _ & Hcalls & _).
    rewrite Hup. clear Hup.
    generalize (media_handle (provider (calls w) (upload_of row))). intros mediaId.
    destruct (truthy mediaId).
    + unfold ret at 1. unfold axios_post. rewrite Hcalls.
      exists (upload_of row). eexists.
      destruct (provider _ _) as [data | msg]; simpl.
      * destruct (get_prop data "messages"); simpl; now rewrite <- app_assoc.
      * now rewrite <- app_assoc.
    + simpl. exists (upload_of row), []. assumption.
  - unfold ret at 1. unfold axios_post.
    exists (PostMessages (text_payload to text)), [].
    destruct (provider _ _) as [data | msg]; simpl.
    + destruct (get_prop data "messages"); reflexivity.
    + reflexivity.
Qed.

Lemma timer_send_spec (provider : Provider) (to : string) (text : option string)
  (mediaRow : option MediaRow) (w : World) :
  exists ok w' c extra,
    TimerServer.sendWhatsAppMessage provider to text mediaRow w = (Ok ok, w')
    /\ db w' = db w /\ timers w' = timers w
    /\ calls w' = (calls w ++ c :: extra)%list.
Proof.
  unfold TimerServer.sendWhatsAppMessage, try_catch, bind.
  destruct mediaRow as [row |].
  - destruct (uploadMediaToWhatsApp_spec provider w row) as (w1 & Hup & Hdb & Hcalls & Htm).
    rewrite Hup. clear Hup.
    generalize (media_handle (provider (calls w) (upload_of row))). intros mediaId.
    destruct (truthy mediaId).
    + unfold ret at 1. unfold axios_post. rewrite Hcalls.
      destruct (provider _ _) as [data | msg]; simpl;
        do 2 eexists; exists (upload_of row); eexists;
        (split; [reflexivity |]); simpl; rewrite <- app_assoc;
        repeat split; assumption || reflexivity.
    + simpl. do 2 eexists. exists (upload_of row), [].
      split; [reflexivity |]. simpl. auto.
  - unfold ret at 1. unfold axios_post.
    destruct (provider _ _) as [data | msg]; simpl;
      do 2 eexists; exists (PostMessages (text_payload to text)), [];
      (split; [reflexivity |]); simpl; auto.
Qed.

Lemma timer_sendAndMark_spec (provider : Provider) (msg : Msg) (w : World) :
  exists st w' c extra,
    TimerServer.sendAndMark provider msg w = (Ok tt, w')
    /\ terminal st
    /\ db w' = update_status st (Some (sm_id msg)) (db w)
    /\ timers w' = timers w
    /\ calls w' = (calls w ++ c :: extra)%list.
Proof.
  destruct (timer_send_spec provider (sm_phone_number msg) (sm_message_text msg)
              (media_of msg (db w)) w) as (ok & w1 & c & extra & Hsend & Hdb & Htm & Hcalls).
  unfold TimerServer.sendAndMark, try_catch, bind.
  rewrite resolve_media_spec, Hsend.
  destruct ok; simpl;
    [exists "sent" | exists "failed"]; eexists; exists c, extra;
    (split; [reflexivity |]); simpl; rewrite Hdb; unfold terminal;
    repeat split; auto.
Qed.

(** ** The startup sweep *)

Lemma select_upcoming_In (now : Z) (d : Db) (m : Msg) :
  In m (TimerServer.select_upcoming now d)
  <-> In m (scheduled_messages d) /\ sm_status m = "pending" /\ now <= sm_scheduled_time m.
Proof.
  unfold TimerServer.select_upcoming. rewrite filter_In, andb_true_iff.
  now rewrite String.eqb_eq, Z.leb_le.
Qed.

Lemma filter_none {A : Type} (f : A -> bool) (l : list A) :
  (forall x, In x l -> f x = false) -> filter f l = [].
Proof.
  induction l as [| x l IH]; intros H; [reflexivity |].
  simpl. rewrite (H x (or_introl eq_refl)). apply IH. intros y Hy. apply H. now right.
Qed.

(** ** Scheduled times *)

Lemma select_due_In (now : Z) (d : Db) (m : Msg) :
  In m (select_due now d)
  <-> In m (scheduled_messages d) /\ sm_status m = "pending" /\ sm_scheduled_time m <= now.
Proof.
  unfold select_due. rewrite filter_In, andb_true_iff.
  now rewrite String.eqb_eq, Z.leb_le.
Qed.

(** C9, for the handler of [server.js]: an accepted request stores one new
    pending entry whose [scheduled_time] is the UTC instant of the request's
    date-time: by the literal's own offset when it carries one and, when it
    carries none, the instant at which the clocks of Asia/Kolkata showed
    its date and time fields, as the time-zone database has it (five and a
    half hours earlier wherever the zone stands at UTC+05:30, as it has
    since 15 October 1945).  The conversion is made once, by the handler:
    the sweep selects an entry by comparing the stored value, as it is,
    with the UTC clock. *)
Theorem C9_server_stores_utc_instant (Asia_Kolkata : Zone) (rq : ScheduleRequest)
  (l : IsoTime) (w : World) :
  rq_scheduled_time rq = TimeLiteral l ->
  fst (Server.post_schedule_message Asia_Kolkata rq w) = Ok Scheduled ->
  (exists row,
     scheduled_messages (db (snd (Server.post_schedule_message Asia_Kolkata rq w)))
     = (scheduled_messages (db w) ++ [row])%list
     /\ sm_status row = "pending"
     /\ sm_scheduled_time row
        = match offset l with
          | Some o => wall l - o * 60000
          | None => Asia_Kolkata (wall l)
          end
     /\ (offset l = None -> Asia_Kolkata (wall l) = wall l - 330 * 60000 ->
         sm_scheduled_time row = wall l - 330 * 60000))
  /\ (forall nowUTC d m,
        In m (select_due nowUTC d)
        <-> In m (scheduled_messages d) /\ sm_status m = "pending"
            /\ sm_scheduled_time m <= nowUTC).
Proof.
  intros Htime Hok. split; [| intros; apply select_due_In].
  revert Hok. unfold Server.post_schedule_message, try_catch.
  destruct (rq_phone_number rq =? "")%string; [discriminate |].
  rewrite Htime. unfold bind, lift.
  destruct (int4_param (js_or (rq_media_id rq) VNull)) as [media | e];
    [| simpl; discriminate].
  unfold insert_message, fromISO_toUTC_toISO, timestamp_in, instant_in, ms_per_minute.
  simpl option_map. cbv iota.
  assert (Hist : forall t : Z,
             t = match offset l with
                 | Some o => wall l - o * 60000
                 | None => Asia_Kolkata (wall l)
                 end ->
             offset l = None -> Asia_Kolkata (wall l) = wall l - 330 * 60000 ->
             t = wall l - 330 * 60000)
    by (intros t -> -> Hzone; exact Hzone).
  destruct media as [k |].
  - destruct (select_media k (db w)); simpl; [| discriminate].
    intros _. eexists. split; [reflexivity |]. split; [reflexivity |].
    split; [reflexivity | now apply Hist].
  - simpl. intros _. eexists. split; [reflexivity |]. split; [reflexivity |].
    split; [reflexivity | now apply Hist].
Qed.

Lemma C9_witness :
  (exists row,
     scheduled_messages (db (snd (Server.post_schedule_message IST cairo_request
                                    (world_of empty_db))))
     = [row]
     /\ sm_status row = "pending"
     /\ sm_scheduled_time row = 1893484800000)
  /\ (exists row,
        scheduled_messages (db (snd (Server.post_schedule_message IST local_request
                                       (world_of empty_db))))
        = [row]
        /\ sm_status row = "pending"
        /\ sm_scheduled_time row = 1893472200000).
Proof.
  split.
  - destruct (C9_server_stores_utc_instant IST cairo_request cairo_time (world_of empty_db)
                eq_refl eq_refl) as ((row & Hrows & Hst & Htime & _) & _).
    exists row. repeat split; assumption.
  - destruct (C9_server_stores_utc_instant IST local_request (mkIso 1893492000000 None)
                (world_of empty_db) eq_refl eq_refl) as ((row & Hrows & Hst & _ & Htime) & _).
    exists row. split; [exact Hrows |]. split; [exact Hst |].
    apply Htime; reflexivity.
Defined.

(** C9 as stated fails for the handler of the timer-driven revision: a
    request for 10:00 at UTC+02:00, whose UTC instant is 08:00, is stored
    with the fields of 10:00 as they came, and the delay of its timer is
    counted from those fields as the process, here one at UTC, reads
    them. *)
Lemma C9_counterexample :
  wall cairo_time - 120 * 60000 = 1893484800000
  /\ TimerServer.post_schedule_message UTC 1893000000000 cairo_request
       (world_of empty_db)
     = (Ok Scheduled,
        mkWorld (mkDb [] [mkMsg 1 "+1555" (Some "hi") None 1893492000000 "pending"] 2)
                [] []
                [Armed 492000000
                   (mkMsg 1 "+1555" (Some "hi") None 1893492000000 "pending")]).
Proof. split; reflexivity. Qed.

(** * Further properties of the code *)

(** ** Webhook verification *)

Lemma is_str_eq (v : value) (lit : string) : is_str v lit = true <-> v = VStr lit.
Proof.
  destruct v; simpl; try (split; [discriminate | intros H; discriminate H]).
  rewrite String.eqb_eq. split; [now intros -> | now intros [= ->]].
Qed.

(** The verification handshake of [GET /webhook], for a verify token that is
    set: the challenge is sent back with 200 exactly when the mode is
    [subscribe] and the token is the verify token; the answer is 400 exactly
    when the mode or the token is missing, and 403 in every other case. *)
Theorem webhook_verification (tok : string) (mode token challenge : value) :
  tok <> "" ->
  (get_webhook tok mode token challenge = (200, Some challenge)
   <-> mode = VStr "subscribe" /\ token = VStr tok)
  /\ (get_webhook tok mode token challenge = (400, None)
      <-> truthy mode = false \/ truthy token = false)
  /\ (get_webhook tok mode token challenge = (403, None)
      <-> truthy mode = true /\ truthy token = true
          /\ ~ (mode = VStr "subscribe" /\ token = VStr tok)).
Proof.
  intros Htok. unfold get_webhook.
  assert (Hboth : is_str mode "subscribe" && is_str token tok = true
                  <-> mode = VStr "subscribe" /\ token = VStr tok)
    by (now rewrite andb_true_iff, !is_str_eq).
  assert (Htruthy : mode = VStr "subscribe" /\ token = VStr tok ->
                    truthy mode && truthy token = true).
  { intros [-> ->]. simpl. destruct (String.eqb_spec tok ""); [contradiction | reflexivity]. }
  destruct (truthy mode && truthy token) eqn:Et.
  - apply andb_true_iff in Et. destruct Et as [Em Et].
    destruct (is_str mode "subscribe" && is_str token tok) eqn:Es.
    + pose proof (proj1 Hboth eq_refl) as Heq.
      repeat split; intros; try discriminate; try tauto; intuition congruence.
    + assert (Hn : ~ (mode = VStr "subscribe" /\ token = VStr tok))
        by (intros H; apply Hboth in H; discriminate H).
      repeat split; intros; try discriminate; try tauto; intuition congruence.
  - assert (Hn : ~ (mode = VStr "subscribe" /\ token = VStr tok))
      by (intros H; apply Htruthy in H; discriminate H).
    apply andb_false_iff in Et.
    repeat split; intros; try discriminate; try tauto; intuition congruence.
Qed.

Lemma webhook_verification_witness :
  get_webhook "s3cret" (VStr "subscribe") (VStr "s3cret") (VStr "1158201444")
  = (200, Some (VStr "1158201444"))
  /\ get_webhook "s3cret" (VStr "subscribe") (VStr "guess") (VStr "1158201444")
     = (403, None).
Proof.
  assert (Htok : "s3cret" <> "") by discriminate.
  split.
  - apply (webhook_verification "s3cret" (VStr "subscribe") (VStr "s3cret")
             (VStr "1158201444") Htok). now split.
  - apply (webhook_verification "s3cret" (VStr "subscribe") (VStr "guess")
             (VStr "1158201444") Htok).
    repeat split. intros [_ H]. discriminate H.
Defined.

(** ** The media library *)

Lemma includes_iff (l : list string) (x : string) : includes l x = true <-> In x l.
Proof.
  unfold includes. rewrite existsb_exists. split.
  - intros (y & Hin & Heq). apply String.eqb_eq in Heq. now subst.
  - intros Hin. exists x. split; [assumption | apply String.eqb_refl].
Qed.

(** The two ways an upload request ends. *)
Lemma upload_cases (nextval : Z) (file : option UploadedFile) (name : string) (w : World) :
  (exists f,
     file = Some f /\ name <> "" /\ In (mimetype f) allowed_types
     /\ select_media nextval (db w) = None
     /\ post_upload_media nextval file name w
        = (Ok Uploaded,
           mkWorld (with_media (mkMedia nextval name (mimetype f) (buffer f)) (db w))
                   (calls w) (errors w) (timers w)))
  \/ (exists error,
        fst (post_upload_media nextval file name w) = Ok (UploadRejected error)
        /\ db (snd (post_upload_media nextval file name w)) = db w
        /\ calls (snd (post_upload_media nextval file name w)) = calls w
        /\ timers (snd (post_upload_media nextval file name w)) = timers w).
Proof.
  unfold post_upload_media, try_catch.
  destruct file as [f |]; [| right; simpl; eauto].
  destruct (String.eqb_spec name "") as [Hname | Hname]; [right; simpl; eauto |].
  destruct (includes allowed_types (mimetype f)) eqn:Hinc; [| right; simpl; eauto].
  apply includes_iff in Hinc. unfold bind, insert_media. cbv beta iota delta [negb].
  destruct (select_media nextval (db w)) eqn:Hpk.
  - right. simpl. eauto.
  - left. exists f. repeat split; assumption.
Qed.

(** [POST /api/upload-media] stores a media row exactly when a file and a
    name came, the file's type is on the allow-list and the id is free; it
    then appends that row and changes nothing else.  In every other case it
    answers with a refusal and leaves the tables as they were.  It never
    contacts the provider. *)
Theorem upload_media_validates (nextval : Z) (file : option UploadedFile)
  (name : string) (w : World) :
  (fst (post_upload_media nextval file name w) = Ok Uploaded
   <-> exists f, file = Some f /\ name <> "" /\ In (mimetype f) allowed_types
                 /\ select_media nextval (db w) = None)
  /\ (forall f, file = Some f ->
        fst (post_upload_media nextval file name w) = Ok Uploaded ->
        db (snd (post_upload_media nextval file name w))
        = with_media (mkMedia nextval name (mimetype f) (buffer f)) (db w))
  /\ (fst (post_upload_media nextval file name w) <> Ok Uploaded ->
      (exists error, fst (post_upload_media nextval file name w) = Ok (UploadRejected error))
      /\ db (snd (post_upload_media nextval file name w)) = db w)
  /\ calls (snd (post_upload_media nextval file name w)) = calls w.
Proof.
  destruct (upload_cases nextval file name w)
    as [(f & Hfile & Hname & Htype & Hpk & Hrun) | (error & Hres & Hdb & Hcalls & _)].
  - rewrite Hrun. simpl. split; [| split; [| split]].
    + split; [intros _; exists f; repeat split; assumption | reflexivity].
    + intros f' Hf' _. rewrite Hfile in Hf'. now inversion Hf'.
    + intros H. now contradiction H.
    + reflexivity.
  - rewrite Hres. split; [| split; [| split]].
    + split; [discriminate |].
      intros (f & Hfile & Hname & Htype & Hpk). exfalso.
      revert Hres. unfold post_upload_media, try_catch. rewrite Hfile.
      destruct (String.eqb_spec name ""); [contradiction |].
      apply includes_iff in Htype. rewrite Htype. unfold bind, insert_media.
      cbv beta iota delta [negb]. rewrite Hpk. discriminate.
    + intros f _ H. discriminate H.
    + intros _. split; [eauto | assumption].
    + assumption.
Qed.

Lemma upload_media_validates_witness :
  fst (post_upload_media 1 (Some png_file) "logo" (world_of empty_db)) = Ok Uploaded
  /\ db (snd (post_upload_media 1 (Some png_file) "logo" (world_of empty_db)))
     = with_media (mkMedia 1 "logo" "image/png" "PNG") empty_db.
Proof.
  destruct (upload_media_validates 1 (Some png_file) "logo" (world_of empty_db))
    as (Hiff & Hdb & _).
  assert (Hok : fst (post_upload_media 1 (Some png_file) "logo" (world_of empty_db))
                = Ok Uploaded).
  { apply Hiff. exists png_file. repeat split; [discriminate | simpl; auto 10]. }
  split; [exact Hok | exact (Hdb png_file eq_refl Hok)].
Defined.

Lemma select_media_appended (row : MediaRow) (d : Db) (k : Z) :
  select_media (ml_id row) d = None ->
  select_media k (with_media row d)
  = if k =? ml_id row then Some row else select_media k d.
Proof.
  unfold select_media, with_media. simpl. intros Hfree.
  induction (media_library d) as [| r l IH]; simpl in *.
  - rewrite Z.eqb_sym. reflexivity.
  - destruct (ml_id r =? ml_id row) eqn:Er; [discriminate Hfree |].
    destruct (ml_id r =? k) eqn:Ek.
    + apply Z.eqb_eq in Ek. subst k. now rewrite Er.
    + now apply IH.
Qed.

(** Upload, then look up: after an accepted upload the new id resolves to the
    row that was uploaded, and every other id resolves as before. *)
Theorem upload_then_lookup (nextval : Z) (f : UploadedFile) (name : string)
  (w : World) :
  fst (post_upload_media nextval (Some f) name w) = Ok Uploaded ->
  select_media nextval (db (snd (post_upload_media nextval (Some f) name w)))
  = Some (mkMedia nextval name (mimetype f) (buffer f))
  /\ (forall k, k <> nextval ->
        select_media k (db (snd (post_upload_media nextval (Some f) name w)))
        = select_media k (db w)).
Proof.
  intros Hok.
  destruct (upload_cases nextval (Some f) name w)
    as [(f' & Hfile & _ & _ & Hpk & Hrun) | (error & Hres & _)];
    [| rewrite Hok in Hres; discriminate Hres].
  inversion Hfile; subst f'. rewrite Hrun. simpl.
  split.
  - rewrite select_media_appended by exact Hpk. simpl. now rewrite Z.eqb_refl.
  - intros k Hk. rewrite select_media_appended by exact Hpk. simpl.
    destruct (Z.eqb_spec k nextval); [contradiction | reflexivity].
Qed.

Lemma upload_then_lookup_witness :
  select_media 1 (db (snd (post_upload_media 1 (Some png_file) "logo" (world_of empty_db))))
  = Some (mkMedia 1 "logo" "image/png" "PNG").
Proof.
  apply (upload_then_lookup 1 png_file "logo" (world_of empty_db)). reflexivity.
Defined.

Lemma allowed_type_listed (t : string) :
  In t allowed_types ->
  exists list, In (getWhatsAppPayloadType t, list) WHATSAPP_ALLOWED_TYPES /\ In t list.
Proof.
  intros Hin. simpl in Hin.
  repeat (destruct Hin as [<- | Hin];
          [eexists; split; [simpl; eauto 6 | simpl; eauto 12] |]).
  contradiction.
Qed.

(** ** What the handlers change *)

Lemma set_status_twice (st st' : string) (m : Msg) :
  set_status st' (set_status st m) = set_status st' m.
Proof. reflexivity. Qed.

Lemma touched_refl (P : Z -> Prop) (m : Msg) : touched P m m.
Proof. now left. Qed.

Lemma touched_trans (P : Z -> Prop) (m1 m2 m3 : Msg) :
  touched P m1 m2 -> touched P m2 m3 -> touched P m1 m3.
Proof.
  intros [-> | (Hp & st & Hst & ->)] H23; [exact H23 |].
  destruct H23 as [-> | (Hp' & st' & Hst' & ->)].
  - right. eauto.
  - right. split; [exact Hp |]. exists st'. now rewrite set_status_twice.
Qed.

Lemma touched_mono (P Q : Z -> Prop) (m m' : Msg) :
  (forall i, P i -> Q i) -> touched P m m' -> touched Q m m'.
Proof.
  intros Hpq [-> | (Hp & st & Hst & ->)]; [now left | right; eauto].
Qed.

Lemma Forall2_same {A : Type} (R : A -> A -> Prop) (l : list A) :
  (forall x, R x x) -> Forall2 R l l.
Proof. intros Hr. induction l; constructor; auto. Qed.

Lemma Forall2_chain {A : Type} (R : A -> A -> Prop) (l1 l2 l3 : list A) :
  (forall x y z, R x y -> R y z -> R x z) ->
  Forall2 R l1 l2 -> Forall2 R l2 l3 -> Forall2 R l1 l3.
Proof.
  intros Ht H12. revert l3. induction H12; intros l3 H23; inversion H23; subst;
    constructor; eauto.
Qed.

Lemma status_only_refl (P : Z -> Prop) (d : Db) : status_only P d d.
Proof.
  repeat split. apply Forall2_same. apply touched_refl.
Qed.

Lemma status_only_trans (P : Z -> Prop) (d1 d2 d3 : Db) :
  status_only P d1 d2 -> status_only P d2 d3 -> status_only P d1 d3.
Proof.
  intros (Hm & Hn & Hr) (Hm' & Hn' & Hr'). repeat split; try congruence.
  eapply Forall2_chain; eauto. apply touched_trans.
Qed.

Lemma status_only_mono (P Q : Z -> Prop) (d d' : Db) :
  (forall i, P i -> Q i) -> status_only P d d' -> status_only Q d d'.
Proof.
  intros Hpq (Hm & Hn & Hr). repeat split; try assumption.
  eapply Forall2_impl; [| exact Hr]. intros a b. now apply touched_mono.
Qed.

Lemma update_status_only (st : string) (key : option Z) (d : Db) :
  terminal st -> status_only (fun i => key = Some i) d (update_status st key d).
Proof.
  intros Hst. destruct key as [k |]; [| apply status_only_refl].
  unfold status_only, update_status. simpl.
  split; [reflexivity | split; [reflexivity |]].
  induction (scheduled_messages d) as [| m l IH]; simpl; constructor; [| exact IH].
  destruct (Z.eqb_spec (sm_id m) k) as [Heq | Hne]; [right | now left].
  split; [now rewrite Heq | eauto].
Qed.

(** A loop keeps a reflexive and transitive relation between the worlds
    before and after when each of its turns does. *)
Lemma for_of_rel {A : Type} (R : World -> World -> Prop) (body : A -> M unit)
  (xs : list A) :
  (forall w, R w w) ->
  (forall w1 w2 w3, R w1 w2 -> R w2 w3 -> R w1 w3) ->
  (forall x, In x xs -> forall w, R w (snd (body x w))) ->
  forall w, R w (snd (for_of xs body w)).
Proof.
  intros Hrefl Htrans. induction xs as [| x rest IH]; intros Hbody w; [apply Hrefl |].
  simpl. unfold bind. pose proof (Hbody x (or_introl eq_refl) w) as Hx.
  destruct (body x w) as [[u | e] w1]; simpl in *; [| exact Hx].
  eapply Htrans; [exact Hx |]. apply IH. intros y Hy. apply Hbody. now right.
Qed.

Lemma quiet_refl (P : Z -> Prop) (w : World) : quiet P w w.
Proof. split; [apply status_only_refl | reflexivity]. Qed.

Lemma quiet_trans (P : Z -> Prop) (w1 w2 w3 : World) :
  quiet P w1 w2 -> quiet P w2 w3 -> quiet P w1 w3.
Proof.
  intros [Hs Ht] [Hs' Ht']. split; [eapply status_only_trans; eauto | congruence].
Qed.

Lemma server_process_one_quiet (provider : Provider) (msg : Msg) (w : World) :
  quiet (fun i => i = sm_id msg) w (snd (Server.process_one provider msg w)).
Proof.
  destruct (server_send_total provider (sm_phone_number msg) (sm_message_text msg)
              (media_of msg (db w)) w) as (v & w1 & Hsend & Hdb & Htm).
  rewrite (server_process_one_spec provider msg w v w1 Hsend).
  split; [| exact Htm]. cbn [snd db]. rewrite Hdb.
  eapply status_only_mono; [| apply update_status_only].
  - intros i [= ->]. reflexivity.
  - unfold terminal. destruct (truthy v); auto.
Qed.

Lemma server_sweep_quiet (provider : Provider) (now : Z) (w : World) :
  quiet (fun i => In i (map sm_id (select_due now (db w)))) w
        (snd (Server.processDueMessages provider now w)).
Proof.
  set (P := fun i => In i (map sm_id (select_due now (db w)))).
  assert (Hloop : quiet P w (snd (for_of (select_due now (db w))
                                     (Server.process_one provider) w))).
  { apply for_of_rel; [apply quiet_refl | apply quiet_trans |].
    intros msg Hin w0. destruct (server_process_one_quiet provider msg w0) as [Hs Ht].
    split; [| exact Ht].
    eapply status_only_mono; [| exact Hs].
    intros i ->. unfold P. now apply in_map. }
  unfold Server.processDueMessages, try_catch, bind, get_db.
  destruct (for_of _ _ w) as [[u | e] w1]; exact Hloop.
Qed.

Lemma timer_sendAndMark_quiet (provider : Provider) (msg : Msg) (w : World) :
  quiet (fun i => i = sm_id msg) w (snd (TimerServer.sendAndMark provider msg w)).
Proof.
  destruct (timer_sendAndMark_spec provider msg w)
    as (st & w' & c & extra & Hrun & Hst & Hdb & Htm & _).
  rewrite Hrun. split; [| exact Htm]. cbn [snd]. rewrite Hdb.
  eapply status_only_mono; [| now apply update_status_only].
  intros i [= ->]. reflexivity.
Qed.

(** The webhook keeps every reflexive and transitive relation that writing
    a terminal status and logging an error keep. *)
Lemma webhook_rel (R : World -> World -> Prop) :
  (forall w, R w w) ->
  (forall w1 w2 w3, R w1 w2 -> R w2 w3 -> R w1 w3) ->
  (forall st key w, terminal st ->
     R w (mkWorld (update_status st key (db w)) (calls w) (errors w) (timers w))) ->
  (forall tag detail w, R w (snd (console_error tag detail w))) ->
  forall body w, R w (snd (Server.post_webhook body w)).
Proof.
  intros Hrefl Htrans Hupd Hlog body w.
  assert (Hstatus : forall s w0, R w0 (snd (Server.process_status s w0))).
  { intros s w0. unfold Server.process_status, bind, lift, modify_db.
    destruct (get_prop s "id"); [| apply Hrefl].
    destruct (get_prop s "status") as [v |]; [| apply Hrefl].
    destruct (int4_param _); [| apply Hrefl].
    simpl. apply Hupd. unfold terminal.
    destruct (is_str v "delivered" || is_str v "read"); auto. }
  assert (Hchange : forall c w0, R w0 (snd (Server.process_change c w0))).
  { intros c w0. unfold Server.process_change, bind, lift.
    destruct (get_prop c "value") as [v |]; [| apply Hrefl].
    destruct (get_prop v "statuses") as [s0 |]; [| apply Hrefl].
    destruct (iterate _) as [l |]; [| apply Hrefl].
    apply for_of_rel; auto. }
  assert (Hentry : forall e w0, R w0 (snd (Server.process_entry e w0))).
  { intros e w0. unfold Server.process_entry, bind, lift.
    destruct (get_prop e "changes") as [c0 |]; [| apply Hrefl].
    destruct (iterate _) as [l |]; [| apply Hrefl].
    apply for_of_rel; auto. }
  assert (Hall : R w (snd (Server.process_receipts body w))).
  { unfold Server.process_receipts, bind, lift.
    destruct (get_prop body "entry") as [e0 |]; [| apply Hrefl].
    destruct (iterate _) as [l |]; [| apply Hrefl].
    apply for_of_rel; auto. }
  unfold Server.post_webhook, try_catch, bind, ret.
  destruct (Server.process_receipts body w) as [[u | e] w1]; simpl in *; [exact Hall |].
  eapply Htrans; [exact Hall |].
  specialize (Hlog "Error processing webhook" (error_message e) w1).
  exact Hlog.
Qed.

Lemma Forall2_touched_ids (P : Z -> Prop) (l l' : list Msg) :
  Forall2 (touched P) l l' -> map sm_id l' = map sm_id l.
Proof.
  induction 1 as [| m m' l l' Ht _ IH]; [reflexivity |].
  simpl. rewrite IH. f_equal.
  destruct Ht as [-> | (_ & st & _ & ->)]; reflexivity.
Qed.

Lemma Forall2_touched_In (P : Z -> Prop) (l l' : list Msg) (m' : Msg) :
  Forall2 (touched P) l l' -> In m' l' -> exists m, In m l /\ touched P m m'.
Proof.
  induction 1 as [| m0 m0' l l' Ht _ IH]; intros Hin; [contradiction |].
  destruct Hin as [<- | Hin].
  - exists m0. split; [now left | exact Ht].
  - destruct (IH Hin) as (m & Hm & Htm). exists m. split; [now right | exact Htm].
Qed.

Lemma Forall2_touched_kept (P : Z -> Prop) (l l' : list Msg) (m : Msg) :
  Forall2 (touched P) l l' -> In m l -> ~ P (sm_id m) -> In m l'.
Proof.
  induction 1 as [| m0 m0' l l' Ht _ IH]; intros Hin Hnp; [contradiction |].
  destruct Hin as [-> | Hin].
  - left. destruct Ht as [-> | (Hp & _)]; [reflexivity | contradiction].
  - right. now apply IH.
Qed.

(** The due-sweep changes nothing but statuses, and only of the entries it
    selected: the media library, the id sequence, the timers and the number
    and order of the entries stay, every entry is as before or has a
    terminal status written to it, and, the ids being distinct, an entry
    that was not pending and due at the time of the query is left exactly
    as it was. *)
Theorem sweep_touches_selected_only (provider : Provider) (now : Z) (w : World) :
  status_only (fun i => In i (map sm_id (select_due now (db w))))
              (db w) (db (snd (Server.processDueMessages provider now w)))
  /\ timers (snd (Server.processDueMessages provider now w)) = timers w
  /\ (NoDup (map sm_id (scheduled_messages (db w))) ->
      forall m, In m (scheduled_messages (db w)) ->
        ~ (sm_status m = "pending" /\ sm_scheduled_time m <= now) ->
        In m (scheduled_messages (db (snd (Server.processDueMessages provider now w))))).
Proof.
  destruct (server_sweep_quiet provider now w) as [Hs Ht].
  split; [exact Hs |]. split; [exact Ht |].
  intros Hnodup m Hin Hnot.
  destruct Hs as (_ & _ & Hrows).
  apply (Forall2_touched_kept _ _ _ m Hrows Hin).
  intros Hsel. apply in_map_iff in Hsel. destruct Hsel as (m2 & Hid & Hm2).
  apply select_due_In in Hm2. destruct Hm2 as (Hin2 & Hp & Hd).
  assert (m2 = m).
  { clear - Hnodup Hin Hin2 Hid.
    induction (scheduled_messages (db w)) as [| x l IH]; [contradiction |].
    simpl in Hnodup. inversion Hnodup as [| ? ? Hnotin Hrest]; subst.
    destruct Hin as [-> | Hin], Hin2 as [-> | Hin2].
    - reflexivity.
    - exfalso. apply Hnotin. rewrite <- Hid. now apply in_map.
    - exfalso. apply Hnotin. rewrite Hid. now apply in_map.
    - now apply IH. }
  subst m2. apply Hnot. now split.
Qed.

Lemma sweep_touches_selected_only_witness :
  In (text_msg "pending")
     (scheduled_messages
        (db (snd (Server.processDueMessages (accepting "wamid.1") 400
                    (world_of (text_db "pending")))))).
Proof.
  destruct (sweep_touches_selected_only (accepting "wamid.1") 400
              (world_of (text_db "pending"))) as (_ & _ & Hkept).
  apply Hkept.
  - simpl. repeat constructor. intros [].
  - simpl. auto.
  - intros [_ Hd]. simpl in Hd. lia.
Defined.

Lemma webhook_quiet (body : value) (w : World) :
  status_only (fun _ => True) (db w) (db (snd (Server.post_webhook body w)))
  /\ calls (snd (Server.post_webhook body w)) = calls w
  /\ timers (snd (Server.post_webhook body w)) = timers w.
Proof.
  apply (webhook_rel
           (fun w0 w1 => status_only (fun _ => True) (db w0) (db w1)
                         /\ calls w1 = calls w0 /\ timers w1 = timers w0)).
  - intros w0. split; [apply status_only_refl | auto].
  - intros w1 w2 w3 (Hs & Hc & Ht) (Hs' & Hc' & Ht').
    split; [eapply status_only_trans; eauto | split; congruence].
  - intros st key w0 Hst. simpl. split; [| auto].
    eapply status_only_mono; [| now apply update_status_only]. auto.
  - intros tag detail w0. simpl. split; [apply status_only_refl | auto].
Qed.

(** The webhook changes nothing but statuses: whatever the body, it makes no
    request to the provider, arms no timer, stores and removes no entry and
    no media row, and every entry is as before or has [sent] or [failed]
    written to it. *)
Theorem webhook_writes_statuses_only (body : value) (w : World) :
  status_only (fun _ => True) (db w) (db (snd (Server.post_webhook body w)))
  /\ calls (snd (Server.post_webhook body w)) = calls w
  /\ timers (snd (Server.post_webhook body w)) = timers w.
Proof. apply webhook_quiet. Qed.

(** ** Invariants of the tables *)

Lemma evolves_trans (d1 d2 d3 : Db) : evolves d1 d2 -> evolves d2 d3 -> evolves d1 d3.
Proof.
  induction 1; intros H23; eauto using evolves.
Qed.

Lemma status_only_evolves (P : Z -> Prop) (d d' : Db) :
  status_only P d d' -> evolves d d'.
Proof.
  intros Hs. eapply evolves_status; [| apply evolves_refl].
  eapply status_only_mono; [| exact Hs]. auto.
Qed.

Lemma insert_message_cases (phone : string) (text : option string)
  (media : option Z) (time : option Z) (w : World) :
  (exists t,
     time = Some t
     /\ new_entry (db w) (mkMsg (next_id (db w)) phone text media t "pending")
     /\ insert_message phone text media time w
        = (Ok (mkMsg (next_id (db w)) phone text media t "pending"),
           mkWorld (with_message
                      (Some (mkMsg (next_id (db w)) phone text media t "pending")) (db w))
                   (calls w) (errors w) (timers w)))
  \/ (exists e,
        insert_message phone text media time w
        = (Throw e, mkWorld (with_message None (db w)) (calls w) (errors w) (timers w))
        /\ (time = None
            \/ exists k, media = Some k /\ select_media k (db w) = None)).
Proof.
  unfold insert_message, with_message, new_entry.
  destruct time as [t |]; [| right; eauto].
  destruct media as [k |].
  - destruct (select_media k (db w)) eqn:Hsel.
    + left. exists t. repeat split. simpl. intros k' [= <-]. congruence.
    + right. eauto 6.
  - left. exists t. repeat split. simpl. discriminate.
Qed.

Lemma server_schedule_evolves (zone : Zone) (rq : ScheduleRequest) (w : World) :
  evolves (db w) (db (snd (Server.post_schedule_message zone rq w)))
  /\ calls (snd (Server.post_schedule_message zone rq w)) = calls w
  /\ timers (snd (Server.post_schedule_message zone rq w)) = timers w.
Proof.
  unfold Server.post_schedule_message, try_catch.
  destruct (rq_phone_number rq =? "")%string;
    [simpl; repeat split; apply evolves_refl |].
  assert (Hgo : forall time,
    let r := try_catch
      (bind (lift (int4_param (js_or (rq_media_id rq) VNull)))
            (fun media =>
               bind (insert_message (rq_phone_number rq) (rq_message_text rq) media time)
                    (fun _ => ret Scheduled)))
      (fun err =>
         bind (console_error "Schedule message error" (error_message err))
              (fun _ => ret (Rejected (error_message err)))) w in
    evolves (db w) (db (snd r)) /\ calls (snd r) = calls w /\ timers (snd r) = timers w).
  { intros time. unfold try_catch, bind, lift.
    destruct (int4_param _) as [media | e]; [| simpl; repeat split; apply evolves_refl].
    destruct (insert_message_cases (rq_phone_number rq) (rq_message_text rq) media time w)
      as [(t & _ & Hnew & Hrun) | (e & Hrun & _)]; rewrite Hrun; simpl.
    - split; [| split; reflexivity]. eapply evolves_insert; [exact Hnew | apply evolves_refl].
    - split; [| split; reflexivity]. apply evolves_skip, evolves_refl. }
  destruct (rq_scheduled_time rq) as [| | l]; [simpl; repeat split; apply evolves_refl | |].
  - exact (Hgo None).
  - exact (Hgo (Some (timestamp_in (mkIso (instant_in zone l) (Some 0))))).
Qed.

(** [scheduleMessage] sends nothing and writes nothing itself: it hands one
    piece of work to the event loop. *)
Lemma scheduleMessage_spec (local : Zone) (now : Z) (msg : Msg) (w : World) :
  exists t,
    TimerServer.scheduleMessage local now msg w
    = (Ok tt, mkWorld (db w) (calls w) (errors w) (timers w ++ [t]))
    /\ hands_over local now msg t
    /\ (forall delay m, t = Armed delay m -> 1 <= delay <= TIMEOUT_MAX).
Proof.
  unfold TimerServer.scheduleMessage, setTimeout, unawaited_sendAndMark, hands_over,
    TIMEOUT_MAX.
  cbv zeta.
  destruct (Z.leb_spec (local (sm_scheduled_time msg) - now) 0) as [Hdue | Hlater].
  - exists (Started msg). split; [reflexivity |]. split.
    + split; [reflexivity |]. split; [reflexivity |]. split; intros; lia.
    + intros delay m H. discriminate H.
  - destruct (Z.leb_spec 1 (local (sm_scheduled_time msg) - now)) as [_ | Hlt]; [| lia].
    destruct (Z.leb_spec (local (sm_scheduled_time msg) - now) 2147483647)
      as [Hmax | Hmax];
      simpl; eexists; (split; [reflexivity |]); split.
    + split; [reflexivity |]. split; [intros; lia |]. split; [reflexivity | intros; lia].
    + intros delay m [= <- _]. lia.
    + split; [reflexivity |]. split; [intros; lia |]. split; [intros; lia | reflexivity].
    + intros delay m [= <- _]. lia.
Qed.

Lemma timer_schedule_evolves (local : Zone) (now : Z) (rq : ScheduleRequest)
  (w : World) :
  evolves (db w) (db (snd (TimerServer.post_schedule_message local now rq w)))
  /\ calls (snd (TimerServer.post_schedule_message local now rq w)) = calls w.
Proof.
  unfold TimerServer.post_schedule_message, try_catch.
  destruct (rq_phone_number rq =? "")%string; [split; [apply evolves_refl | reflexivity] |].
  destruct (rq_scheduled_time rq) as [| | l];
    [split; [apply evolves_refl | reflexivity] | |];
    unfold bind, lift;
    (destruct (int4_param _) as [media | e];
     [| split; [apply evolves_refl | reflexivity]]).
  - split; [apply evolves_refl | reflexivity].
  - unfold ret. cbv beta.
    destruct (insert_message_cases (rq_phone_number rq) (rq_message_text rq) media
                (Some (timestamp_in l)) w)
      as [(t & _ & Hnew & Hrun) | (e & Hrun & _)]; rewrite Hrun.
    + set (row := mkMsg _ _ _ _ _ _) in *. set (w1 := mkWorld _ _ _ _).
      destruct (scheduleMessage_spec local now row w1) as (tm & Hs & _).
      rewrite Hs. simpl. split; [| reflexivity].
      eapply evolves_insert; [exact Hnew | apply evolves_refl].
    + simpl. split; [| reflexivity]. apply evolves_skip, evolves_refl.
Qed.

Lemma upload_evolves (nextval : Z) (file : option UploadedFile) (name : string)
  (w : World) :
  evolves (db w) (db (snd (post_upload_media nextval file name w))).
Proof.
  destruct (upload_cases nextval file name w)
    as [(f & _ & _ & Htype & Hpk & Hrun) | (error & _ & Hdb & _)].
  - rewrite Hrun. simpl.
    apply (evolves_upload _ (mkMedia nextval name (mimetype f) (buffer f)));
      [exact Hpk | exact Htype | apply evolves_refl].
  - rewrite Hdb. apply evolves_refl.
Qed.

Lemma check_pending_world (provider : Provider) (now : Z) (w : World) :
  get_check_pending provider now w
  = (Ok true, snd (Server.processDueMessages provider now w)).
Proof.
  destruct (server_sweep_spec provider now w) as (w' & Hrun & _).
  unfold get_check_pending, bind, ret. now rewrite Hrun.
Qed.

Lemma Forall2_pick {A B : Type} (R : A -> B -> Prop) (l : list A) (l' : list B) (a : A) :
  Forall2 R l l' -> In a l -> exists b, In b l' /\ R a b.
Proof.
  induction 1 as [| x y l l' Hxy _ IH]; intros Hin; [contradiction |].
  destruct Hin as [<- | Hin].
  - exists y. split; [now left | exact Hxy].
  - destruct (IH Hin) as (b & Hb & Hr). exists b. split; [now right | exact Hr].
Qed.

Lemma Forall2_pick_r {A B : Type} (R : A -> B -> Prop) (l : list A) (l' : list B) (b : B) :
  Forall2 R l l' -> In b l' -> exists a, In a l /\ R a b.
Proof.
  induction 1 as [| x y l l' Hxy _ IH]; intros Hin; [contradiction |].
  destruct Hin as [<- | Hin].
  - exists x. split; [now left | exact Hxy].
  - destruct (IH Hin) as (a & Ha & Hr). exists a. split; [now right | exact Hr].
Qed.

(** The loop of the startup sweep: one piece of work per row, in order. *)
Lemma startup_loop (local : Zone) (clock : nat -> Z) (rows : list (nat * Msg)) :
  forall w, exists added,
    for_of rows
      (fun turn => TimerServer.scheduleMessage local (clock (fst turn)) (snd turn)) w
    = (Ok tt, mkWorld (db w) (calls w) (errors w) (timers w ++ added))
    /\ Forall2 (fun turn t => hands_over local (clock (fst turn)) (snd turn) t)
               rows added
    /\ (forall delay m, In (Armed delay m) added -> 1 <= delay <= TIMEOUT_MAX).
Proof.
  induction rows as [| [i msg] rest IH]; intros w.
  - exists []. rewrite app_nil_r. split; [now destruct w |].
    split; [constructor | intros delay m []].
  - destruct (scheduleMessage_spec local (clock i) msg w) as (t & Hone & Hover & Hbound).
    destruct (IH (mkWorld (db w) (calls w) (errors w) (timers w ++ [t])))
      as (added & Hrest & Hall & Hbounds).
    exists (t :: added). split; [| split].
    + simpl. unfold bind. rewrite Hone, Hrest. simpl. now rewrite <- app_assoc.
    + now constructor.
    + intros delay m [Heq | Hin]; [now apply (Hbound delay m) | now apply (Hbounds delay m)].
Qed.

Lemma startup_spec (local : Zone) (now : Z) (clock : nat -> Z) (w : World) :
  exists added,
    TimerServer.initPendingMessages local now clock w
    = (Ok tt, mkWorld (db w) (calls w) (errors w) (timers w ++ added))
    /\ Forall2 (fun turn t => hands_over local (clock (fst turn)) (snd turn) t)
               (indexed (TimerServer.select_upcoming now (db w))) added
    /\ (forall delay m, In (Armed delay m) added -> 1 <= delay <= TIMEOUT_MAX).
Proof.
  destruct (startup_loop local clock (indexed (TimerServer.select_upcoming now (db w))) w)
    as (added & Hrun & Hall & Hbounds).
  exists added. split; [| split; assumption].
  unfold TimerServer.initPendingMessages, try_catch, bind, get_db. now rewrite Hrun.
Qed.

Lemma handle_evolves (provider : Provider) (e : Event) (w : World) :
  evolves (db w) (db (handle provider e w)).
Proof.
  destruct e as [zone rq | local now rq | nextval file name | now | body
                 | local now clock | t]; simpl.
  - apply server_schedule_evolves.
  - apply timer_schedule_evolves.
  - apply upload_evolves.
  - rewrite check_pending_world. simpl.
    destruct (server_sweep_quiet provider now w) as [Hs _].
    exact (status_only_evolves _ _ _ Hs).
  - destruct (webhook_quiet body w) as [Hs _].
    exact (status_only_evolves _ _ _ Hs).
  - destruct (startup_spec local now clock w) as (added & Hrun & _).
    rewrite Hrun. apply evolves_refl.
  - destruct (timer_sendAndMark_quiet provider (timer_msg t) w) as [Hs _].
    exact (status_only_evolves _ _ _ Hs).
Qed.

Lemma run_evolves (provider : Provider) (events : list Event) :
  forall w, evolves (db w) (db (run provider events w)).
Proof.
  unfold run. induction events as [| e rest IH]; intros w; simpl.
  - apply evolves_refl.
  - eapply evolves_trans; [apply handle_evolves | apply IH].
Qed.

Lemma NoDup_snoc {A : Type} (l : list A) (x : A) :
  NoDup l -> ~ In x l -> NoDup (l ++ [x]).
Proof.
  induction 1 as [| y l Hy Hl IH]; intros Hx; simpl.
  - constructor; [intros [] | constructor].
  - constructor.
    + intros Hin. apply in_app_or in Hin.
      destruct Hin as [Hin | [<- | []]]; [contradiction | apply Hx; now left].
    + apply IH. intros Hin. apply Hx. now right.
Qed.

Lemma select_media_same_library (k : Z) (d d' : Db) :
  media_library d' = media_library d -> select_media k d' = select_media k d.
Proof. unfold select_media. now intros ->. Qed.

Lemma evolves_keeps_ids (d d' : Db) : evolves d d' -> ids_fresh d -> ids_fresh d'.
Proof.
  induction 1 as [d | d d' d'' (Hm & Hn & Hr) _ IH | d d'' _ IH
                  | d row d'' (Hid & _) _ IH | d r d'' _ _ _ IH];
    intros [Hnd Hlt]; [split; assumption | apply IH | apply IH | apply IH | apply IH];
    unfold ids_fresh; simpl.
  - pose proof (Forall2_touched_ids _ _ _ Hr) as Hids. rewrite Hids, Hn.
    split; [exact Hnd |]. intros m' Hin.
    destruct (Forall2_touched_In _ _ _ m' Hr Hin) as (m & Hm0 & Ht).
    assert (sm_id m' = sm_id m)
      by (destruct Ht as [-> | (_ & st & _ & ->)]; reflexivity).
    specialize (Hlt m Hm0). lia.
  - split; [exact Hnd |]. intros m Hin. specialize (Hlt m Hin). lia.
  - rewrite map_app. simpl. split.
    + apply NoDup_snoc; [exact Hnd |]. rewrite Hid. intros Hin.
      apply in_map_iff in Hin. destruct Hin as (m & Heq & Hin).
      specialize (Hlt m Hin). lia.
    + intros m Hin. apply in_app_or in Hin.
      destruct Hin as [Hin | [<- | []]]; [specialize (Hlt m Hin) |]; lia.
  - split; assumption.
Qed.

Lemma evolves_keeps_refs (d d' : Db) : evolves d d' -> refs_resolve d -> refs_resolve d'.
Proof.
  induction 1 as [d | d d' d'' (Hm & Hn & Hr) _ IH | d d'' _ IH
                  | d row d'' (_ & _ & Hres) _ IH | d r d'' Hfree _ _ IH];
    intros Hinv; [assumption | apply IH | apply IH | apply IH | apply IH];
    intros m k Hin Hk.
  - rewrite (select_media_same_library k d d' Hm).
    destruct (Forall2_touched_In _ _ _ m Hr Hin) as (m0 & Hm0 & Ht).
    apply (Hinv m0 k Hm0).
    destruct Ht as [-> | (_ & st & _ & ->)]; exact Hk.
  - apply (Hinv m k Hin Hk).
  - simpl in Hin. apply in_app_or in Hin.
    destruct Hin as [Hin | [<- | []]]; [apply (Hinv m k Hin Hk) | now apply Hres].
  - rewrite select_media_appended by exact Hfree.
    destruct (k =? ml_id r); [discriminate | apply (Hinv m k Hin Hk)].
Qed.

Lemma evolves_keeps_statuses (d d' : Db) :
  evolves d d' -> statuses_known d -> statuses_known d'.
Proof.
  induction 1 as [d | d d' d'' (Hm & Hn & Hr) _ IH | d d'' _ IH
                  | d row d'' (_ & Hp & _) _ IH | d r d'' _ _ _ IH];
    intros Hinv; [assumption | apply IH | apply IH | apply IH | apply IH];
    intros m Hin.
  - destruct (Forall2_touched_In _ _ _ m Hr Hin) as (m0 & Hm0 & Ht).
    destruct Ht as [-> | (_ & st & Hst & ->)]; [now apply Hinv | now right].
  - now apply Hinv.
  - simpl in Hin. apply in_app_or in Hin.
    destruct Hin as [Hin | [<- | []]]; [now apply Hinv | now left].
  - now apply Hinv.
Qed.

Lemma evolves_keeps_media (d d' : Db) :
  evolves d d' -> media_allowed d -> media_allowed d'.
Proof.
  induction 1 as [d | d d' d'' (Hm & Hn & Hr) _ IH | d d'' _ IH
                  | d row d'' _ _ IH | d r d'' _ Htype _ IH];
    intros Hinv; [assumption | apply IH | apply IH | apply IH | apply IH];
    intros x Hin.
  - rewrite Hm in Hin. now apply Hinv.
  - now apply Hinv.
  - now apply Hinv.
  - simpl in Hin. apply in_app_or in Hin.
    destruct Hin as [Hin | [<- | []]]; [now apply Hinv | exact Htype].
Qed.

Lemma empty_db_invariants :
  ids_fresh empty_db /\ refs_resolve empty_db /\ statuses_known empty_db
  /\ media_allowed empty_db.
Proof.
  split; [split; [constructor | intros m []] |].
  split; [intros m k [] |]. split; [intros m [] | intros r []].
Qed.

(** Ids are never reused: whatever requests, sweeps, receipts and timers
    follow one another, the ids of the stored entries stay pairwise distinct
    and below the sequence the next insert takes its id from. *)
Theorem ids_stay_fresh (provider : Provider) (events : list Event) (w : World) :
  ids_fresh (db w) -> ids_fresh (db (run provider events w)).
Proof. apply evolves_keeps_ids, run_evolves. Qed.

Lemma ids_stay_fresh_witness :
  ids_fresh (db (run (accepting "wamid.1") sample_run (world_of empty_db))).
Proof.
  apply (ids_stay_fresh (accepting "wamid.1") sample_run (world_of empty_db)).
  apply empty_db_invariants.
Defined.

(** References stay resolved: whatever requests, sweeps, receipts and timers
    follow one another, every [media_id] of a stored entry keeps naming a
    row of the media library, so the lookup of a dispatch finds the media
    row of every entry that names one (with a non-zero id). *)
Theorem references_stay_resolved (provider : Provider) (events : list Event)
  (w : World) :
  refs_resolve (db w) ->
  refs_resolve (db (run provider events w))
  /\ (forall m k,
        In m (scheduled_messages (db (run provider events w))) ->
        sm_media_id m = Some k -> k <> 0 ->
        exists row, media_of m (db (run provider events w)) = Some row /\ ml_id row = k).
Proof.
  intros Hinv.
  assert (Hrefs : refs_resolve (db (run provider events w)))
    by (eapply evolves_keeps_refs; [apply run_evolves | exact Hinv]).
  split; [exact Hrefs |].
  intros m k Hin Hk Hnz. unfold media_of. rewrite Hk.
  destruct (Z.eqb_spec k 0); [contradiction |].
  specialize (Hrefs m k Hin Hk). unfold select_media in *.
  destruct (find _ _) as [row |] eqn:Hfind; [| contradiction].
  exists row. split; [reflexivity |].
  apply find_some in Hfind. now apply Z.eqb_eq.
Qed.

Lemma references_stay_resolved_witness :
  exists row,
    media_of (mkMsg 1 "+1555" (Some "hi") (Some 1) 1893472200000 "failed")
             (db (run (accepting "wamid.1") sample_run (world_of empty_db)))
    = Some row
    /\ ml_id row = 1.
Proof.
  destruct (references_stay_resolved (accepting "wamid.1") sample_run (world_of empty_db)
              (proj1 (proj2 empty_db_invariants))) as (_ & Hfound).
  apply Hfound; [simpl; auto | reflexivity | discriminate].
Defined.

(** The status column only ever holds [pending], [sent] or [failed],
    whatever requests, sweeps, receipts (with whatever status text) and
    timers follow one another. *)
Theorem statuses_stay_known (provider : Provider) (events : list Event) (w : World) :
  statuses_known (db w) -> statuses_known (db (run provider events w)).
Proof. apply evolves_keeps_statuses, run_evolves. Qed.

Lemma statuses_stay_known_witness :
  sm_status (mkMsg 1 "+1555" (Some "hi") (Some 1) 1893472200000 "failed") = "pending"
  \/ terminal (sm_status (mkMsg 1 "+1555" (Some "hi") (Some 1) 1893472200000 "failed")).
Proof.
  apply (statuses_stay_known (accepting "wamid.1") sample_run (world_of empty_db)
           (proj1 (proj2 (proj2 empty_db_invariants)))).
  simpl. auto.
Defined.

(** The media library only ever holds allow-listed types, whatever requests
    follow one another: so every media row a dispatch can find is classified
    by the category that lists its type, never by the [document] default. *)
Theorem library_stays_allow_listed (provider : Provider) (events : list Event)
  (w : World) :
  media_allowed (db w) ->
  media_allowed (db (run provider events w))
  /\ (forall r,
        In r (media_library (db (run provider events w))) ->
        exists list,
          In (getWhatsAppPayloadType (ml_type r), list) WHATSAPP_ALLOWED_TYPES
          /\ In (ml_type r) list).
Proof.
  intros Hinv.
  assert (Hkeep : media_allowed (db (run provider events w)))
    by (eapply evolves_keeps_media; [apply run_evolves | exact Hinv]).
  split; [exact Hkeep |].
  intros r Hr. apply allowed_type_listed. now apply Hkeep.
Qed.

Lemma library_stays_allow_listed_witness :
  exists list,
    In (getWhatsAppPayloadType (ml_type (mkMedia 1 "logo" "image/png" "PNG")), list)
       WHATSAPP_ALLOWED_TYPES
    /\ In (ml_type (mkMedia 1 "logo" "image/png" "PNG")) list.
Proof.
  destruct (library_stays_allow_listed (accepting "wamid.1") sample_run (world_of empty_db)
              (proj2 (proj2 (proj2 empty_db_invariants)))) as (_ & Hlisted).
  apply Hlisted. simpl. auto.
Defined.

(** ** Requests made by a sweep *)

Lemma server_send_requests (provider : Provider) (to : string) (text : option string)
  (mediaRow : option MediaRow) (w : World) :
  calls (snd (Server.sendWhatsAppMessage provider to text mediaRow w))
  = (calls w ++ requests_of provider w to text mediaRow)%list.
Proof.
  destruct mediaRow as [row |]; simpl.
  - destruct (truthy (media_handle (provider (calls w) (upload_of row)))) eqn:E.
    + now apply server_send_with_handle.
    + destruct (server_send_upload_fails provider w to text row E)
        as (w1 & Hsend & _ & Hcalls).
      now rewrite Hsend.
  - unfold Server.sendWhatsAppMessage, try_catch, bind.
    unfold ret at 1. unfold axios_post.
    destruct (provider _ _) as [data | msg]; simpl.
    + destruct (get_prop data "messages"); reflexivity.
    + reflexivity.
Qed.




(** ** Outcome of a text dispatch *)

Lemma server_text_send (provider : Provider) (to : string) (text : option string)
  (w : World) :
  fst (Server.sendWhatsAppMessage provider to text None w)
  = Ok (js_or (message_id_of (provider (calls w) (PostMessages (text_payload to text))))
              VNull).
Proof.
  unfold Server.sendWhatsAppMessage, try_catch, bind, message_id_of.
  unfold ret at 1. unfold axios_post.
  destruct (provider _ _) as [data | msg]; simpl; [| reflexivity].
  destruct (get_prop data "messages"); reflexivity.
Qed.

Lemma timer_text_send (provider : Provider) (to : string) (text : option string)
  (w : World) :
  fst (TimerServer.sendWhatsAppMessage provider to text None w)
  = Ok (match provider (calls w) (PostMessages (text_payload to text)) with
        | HttpOk _ => true
        | HttpErr _ => false
        end).
Proof.
  unfold TimerServer.sendWhatsAppMessage, try_catch, bind.
  unfold ret at 1. unfold axios_post.
  now destruct (provider _ _) as [data | msg].
Qed.

(** What decides between [sent] and [failed] for an entry without media: in
    [server.js], whether the answer of the messages endpoint carries a
    message id ([messages[0].id]); in the timer-driven revision, whether the
    request succeeded at all.  An accepted request whose answer names no
    message is therefore [failed] for the one and [sent] for the other. *)
Theorem text_dispatch_outcome (provider : Provider) (msg : Msg) (w : World) :
  media_of msg (db w) = None ->
  db (snd (Server.process_one provider msg w))
  = update_status
      (if truthy (message_id_of
                    (provider (calls w)
                       (PostMessages (text_payload (sm_phone_number msg)
                                        (sm_message_text msg)))))
       then "sent" else "failed")
      (Some (sm_id msg)) (db w)
  /\ db (snd (TimerServer.sendAndMark provider msg w))
     = update_status
         (match provider (calls w)
                  (PostMessages (text_payload (sm_phone_number msg)
                                   (sm_message_text msg))) with
          | HttpOk _ => "sent"
          | HttpErr _ => "failed"
          end)
         (Some (sm_id msg)) (db w).
Proof.
  intros Hnone. split.
  - destruct (server_send_total provider (sm_phone_number msg) (sm_message_text msg)
                (media_of msg (db w)) w) as (v & w1 & Hsend & Hdb & _).
    rewrite (server_process_one_spec provider msg w v w1 Hsend). cbn [snd db].
    rewrite Hdb. rewrite Hnone in Hsend.
    pose proof (server_text_send provider (sm_phone_number msg) (sm_message_text msg) w)
      as Hv.
    rewrite Hsend in Hv. simpl in Hv. inversion Hv as [Hv']. clear Hv.
    unfold js_or. now destruct (truthy (message_id_of _)) eqn:E; [rewrite E |].
  - destruct (timer_send_spec provider (sm_phone_number msg) (sm_message_text msg)
                (media_of msg (db w)) w) as (ok & w1 & c & extra & Hsend & Hdb & _).
    unfold TimerServer.sendAndMark, try_catch, bind.
    rewrite resolve_media_spec, Hsend. rewrite Hnone in Hsend.
    pose proof (timer_text_send provider (sm_phone_number msg) (sm_message_text msg) w)
      as Hv.
    rewrite Hsend in Hv. simpl in Hv. inversion Hv as [Hv']. clear Hv.
    destruct (provider _ _); simpl; now rewrite Hdb.
Qed.

Lemma text_dispatch_outcome_witness :
  db (snd (Server.process_one anonymous (text_msg "pending")
             (world_of (text_db "pending"))))
  = text_db "failed"
  /\ db (snd (TimerServer.sendAndMark anonymous (text_msg "pending")
                (world_of (text_db "pending"))))
     = text_db "sent".
Proof.
  exact (text_dispatch_outcome anonymous (text_msg "pending")
           (world_of (text_db "pending")) eq_refl).
Defined.

(** ** Several receipts in one call *)

Lemma process_status_op (status : value) (w : World) :
  Server.process_status status w
  = match receipt_op status with
    | Ok op => (Ok tt, mkWorld (update_status (fst op) (snd op) (db w))
                               (calls w) (errors w) (timers w))
    | Throw e => (Throw e, w)
    end.
Proof.
  unfold Server.process_status, receipt_op, bind, lift, modify_db.
  destruct (get_prop status "id"); [| reflexivity].
  destruct (get_prop status "status"); [| reflexivity].
  destruct (int4_param _); reflexivity.
Qed.

Lemma webhook_statuses (statuses : list value) (w : World) :
  Server.process_receipts (statuses_body statuses) w
  = for_of statuses Server.process_status w.
Proof.
  unfold Server.process_receipts, statuses_body, bind, lift. cbn -[for_of].
  rewrite for_of_one. unfold Server.process_entry, bind, lift. cbn -[for_of].
  rewrite for_of_one. unfold Server.process_change, bind, lift. cbn -[for_of].
  reflexivity.
Qed.

Lemma update_status_rows (op : string * option Z) (d : Db) :
  update_status (fst op) (snd op) d
  = mkDb (media_library d) (map (fun m => write_row m op) (scheduled_messages d))
         (next_id d).
Proof.
  unfold update_status, write_row. destruct (snd op) as [k |]; [reflexivity |].
  rewrite map_id. now destruct d.
Qed.

Lemma receipts_loop (statuses : list value) :
  forall w,
    db (snd (for_of statuses Server.process_status w)) = write_all (applied statuses) (db w)
    /\ calls (snd (for_of statuses Server.process_status w)) = calls w
    /\ errors (snd (for_of statuses Server.process_status w)) = errors w
    /\ (fst (for_of statuses Server.process_status w) = Ok tt
        <-> List.length (applied statuses) = List.length statuses).
Proof.
  induction statuses as [| s rest IH]; intros w.
  - simpl. unfold write_all. rewrite map_id. destruct w as [[] ? ? ?]. simpl. tauto.
  - simpl. unfold bind. rewrite process_status_op.
    destruct (receipt_op s) as [op | e].
    + destruct (IH (mkWorld (update_status (fst op) (snd op) (db w))
                            (calls w) (errors w) (timers w))) as (Hdb & Hc & He & Hok).
      simpl in *. rewrite Hdb, Hc, He. repeat split.
      * rewrite update_status_rows. unfold write_all. simpl. now rewrite map_map.
      * intros H. f_equal. now apply Hok.
      * intros H. apply Hok. now inversion H.
    + simpl. unfold write_all. rewrite map_id. destruct w as [[] ? ? ?]. simpl.
      repeat split; discriminate.
Qed.

Lemma webhook_after_loop (statuses : list value) (w : World) :
  db (snd (Server.post_webhook (statuses_body statuses) w))
  = write_all (applied statuses) (db w)
  /\ errors (snd (Server.post_webhook (statuses_body statuses) w))
     = (errors w ++
        match fst (for_of statuses Server.process_status w) with
        | Ok _ => []
        | Throw e => [("Error processing webhook", error_message e)]
        end)%list.
Proof.
  destruct (receipts_loop statuses w) as (Hdb & _ & He & _).
  unfold Server.post_webhook, try_catch, bind, ret, console_error.
  rewrite webhook_statuses.
  destruct (for_of statuses Server.process_status w) as [[u | e] w1]; simpl in *.
  - now rewrite app_nil_r.
  - now rewrite He.
Qed.

Lemma applied_until (good rest : list value) (bad : value) (e : JsError) :
  receipt_op bad = Throw e -> applied (good ++ bad :: rest) = applied good.
Proof.
  intros Hbad. induction good as [| s good IH]; simpl.
  - now rewrite Hbad.
  - destruct (receipt_op s); [now rewrite IH | reflexivity].
Qed.

(** One unreadable receipt drops the rest of the call: when reading a
    receipt throws (its id is no integer, it is [null], ...), the receipts
    listed after it are not applied; the tables end as if the list had
    stopped before it, and the call logs an error. *)
Theorem bad_receipt_drops_the_rest (good rest : list value) (bad : value)
  (e : JsError) (w : World) :
  fst (Server.process_status bad w) = Throw e ->
  db (snd (Server.post_webhook (statuses_body (good ++ bad :: rest)) w))
  = db (snd (Server.post_webhook (statuses_body good) w))
  /\ exists detail,
       errors (snd (Server.post_webhook (statuses_body (good ++ bad :: rest)) w))
       = (errors w ++ [("Error processing webhook", detail)])%list.
Proof.
  intros Hthrow. rewrite process_status_op in Hthrow.
  assert (Hbad : receipt_op bad = Throw e)
    by (destruct (receipt_op bad); [discriminate Hthrow | now inversion Hthrow]).
  destruct (webhook_after_loop (good ++ bad :: rest) w) as [Hdb He].
  destruct (webhook_after_loop good w) as [Hdb' _].
  split.
  - now rewrite Hdb, Hdb', (applied_until good rest bad e Hbad).
  - destruct (receipts_loop (good ++ bad :: rest) w) as (_ & _ & _ & Hok).
    destruct (fst (for_of (good ++ bad :: rest) Server.process_status w)) as [u | e'].
    + exfalso. assert (Hlen : List.length (applied (good ++ bad :: rest))
                              = List.length (good ++ bad :: rest))
        by (apply Hok; now destruct u).
      rewrite (applied_until good rest bad e Hbad), length_app in Hlen. simpl in Hlen.
      assert (List.length (applied good) <= List.length good)%nat.
      { clear. induction good as [| s good IH]; simpl; [lia |].
        destruct (receipt_op s); simpl; lia. }
      lia.
    + eauto.
Qed.

Lemma bad_receipt_drops_the_rest_witness :
  db (snd (Server.post_webhook
             (statuses_body [VObj [("id", VStr "wamid.1"); ("status", VStr "read")];
                             VObj [("id", VStr "5"); ("status", VStr "read")]])
             (world_of (text_db "pending"))))
  = db (snd (Server.post_webhook (statuses_body []) (world_of (text_db "pending")))).
Proof.
  apply (bad_receipt_drops_the_rest []
           [VObj [("id", VStr "5"); ("status", VStr "read")]]
           (VObj [("id", VStr "wamid.1"); ("status", VStr "read")])
           (DbFailure "invalid input syntax for type integer")
           (world_of (text_db "pending"))).
  reflexivity.
Defined.

Lemma write_row_fold_id (ops : list (string * option Z)) (m : Msg) :
  fold_left write_row ops m = set_status (sm_status (fold_left write_row ops m)) m.
Proof.
  revert m. induction ops as [| op ops IH]; intros m; simpl.
  - now rewrite set_status_same.
  - rewrite (IH (write_row m op)) at 1.
    generalize (sm_status (fold_left write_row ops (write_row m op))). intros st.
    unfold write_row. destruct (snd op) as [k |]; [| reflexivity].
    destruct (sm_id m =? k); reflexivity.
Qed.

Lemma write_row_idempotent (ops : list (string * option Z)) (m : Msg) :
  fold_left write_row ops (fold_left write_row ops m) = fold_left write_row ops m.
Proof.
  induction ops as [| op ops IH] using rev_ind; [reflexivity |].
  rewrite !fold_left_app. simpl.
  set (y := fold_left write_row ops m) in *.
  assert (Hid : sm_id y = sm_id m)
    by (unfold y; rewrite (write_row_fold_id ops m); reflexivity).
  unfold write_row at 1 3 4. destruct (snd op) as [k |].
  - destruct (sm_id y =? k) eqn:Ek.
    + rewrite (write_row_fold_id ops (set_status (fst op) y)). simpl.
      now rewrite Ek.
    + rewrite IH. fold y. now rewrite Ek.
  - rewrite IH. reflexivity.
Qed.

(** Receipts are idempotent: a webhook call delivered a second time leaves
    the tables exactly as the first delivery left them, whatever receipts it
    lists and whether or not one of them throws. *)
Theorem redelivered_receipts_change_nothing (statuses : list value) (w : World) :
  db (snd (Server.post_webhook (statuses_body statuses)
             (snd (Server.post_webhook (statuses_body statuses) w))))
  = db (snd (Server.post_webhook (statuses_body statuses) w)).
Proof.
  destruct (webhook_after_loop statuses (snd (Server.post_webhook (statuses_body statuses) w)))
    as [Hdb2 _].
  destruct (webhook_after_loop statuses w) as [Hdb1 _].
  rewrite Hdb2, Hdb1. unfold write_all. simpl. f_equal.
  rewrite map_map. apply map_ext. intros m. apply write_row_idempotent.
Qed.

(** ** Scheduling requests *)

Lemma acceptable_unique (rq : ScheduleRequest) (d : Db) (l l' : IsoTime)
  (media media' : option Z) :
  acceptable rq d l media -> acceptable rq d l' media' -> l = l' /\ media = media'.
Proof.
  intros (_ & Ht & Hm & _) (_ & Ht' & Hm' & _). split; congruence.
Qed.

Lemma insert_message_ok (phone : string) (text : option string) (media : option Z)
  (t : Z) (w : World) :
  (forall k, media = Some k -> select_media k (db w) <> None) ->
  insert_message phone text media (Some t) w
  = (Ok (mkMsg (next_id (db w)) phone text media t "pending"),
     mkWorld (with_message (Some (mkMsg (next_id (db w)) phone text media t "pending"))
                (db w))
             (calls w) (errors w) (timers w)).
Proof.
  intros Hfk. unfold insert_message, with_message.
  destruct media as [k |]; [| reflexivity].
  destruct (select_media k (db w)) eqn:Hsel; [reflexivity |].
  now contradiction (Hfk k eq_refl).
Qed.

(** The two ways a scheduling request to [server.js] ends. *)
Ltac refused :=
  simpl; unfold ret; do 2 eexists; split; [reflexivity | repeat split].

Lemma server_schedule_cases (zone : Zone) (rq : ScheduleRequest) (w : World) :
  (exists l media,
     acceptable rq (db w) l media
     /\ Server.post_schedule_message zone rq w
        = (Ok Scheduled,
           mkWorld (with_message
                      (Some (entry_for rq (db w) media (instant_in zone l))) (db w))
                   (calls w) (errors w) (timers w)))
  \/ ((forall l media, ~ acceptable rq (db w) l media)
      /\ exists error w',
           Server.post_schedule_message zone rq w = (Ok (Rejected error), w')
           /\ scheduled_messages (db w') = scheduled_messages (db w)
           /\ media_library (db w') = media_library (db w)
           /\ calls w' = calls w /\ timers w' = timers w).
Proof.
  unfold Server.post_schedule_message, try_catch, acceptable.
  destruct (String.eqb_spec (rq_phone_number rq) "") as [Hp | Hp].
  { right. split; [intros l media (H & _); contradiction |]. refused. }
  destruct (rq_scheduled_time rq) as [| | l] eqn:Ht.
  - right. split; [intros l media (_ & H & _); discriminate |]. refused.
  - right. split; [intros l media (_ & H & _); discriminate |].
    unfold bind, lift. destruct (int4_param _) as [media | e]; refused.
  - unfold bind, lift. destruct (int4_param _) as [media | e] eqn:Hm.
    + destruct (insert_message_cases (rq_phone_number rq) (rq_message_text rq) media
                  (option_map timestamp_in (fromISO_toUTC_toISO zone (TimeLiteral l))) w)
        as [(t & Htime & (_ & _ & Hfk) & Hrun) | (e & Hrun & [Hnone | (k & Hk & Hsel)])].
      * left. exists l, media. split; [repeat split; assumption |].
        rewrite Hrun. simpl in Htime. inversion Htime; subst t. reflexivity.
      * discriminate Hnone.
      * right. split.
        -- intros l' media' (_ & _ & Hm' & Hfk). inversion Hm'; subst media'.
           now apply (Hfk k Hk).
        -- rewrite Hrun. refused.
    + right. split; [intros l' media' (_ & _ & H & _); discriminate |].
      refused.
Qed.

(** [POST /api/schedule-message] of [server.js] stores an entry exactly when
    the request names a recipient and a date-time and its [media_id] is
    empty or names a stored media row; the entry takes the next id, is
    pending, carries the instant of the date-time (by its own offset, or as
    the time-zone database reads it in Asia/Kolkata) and is appended.  Every
    other request is answered with a refusal and stores nothing.  Either way
    no request goes to the provider and no timer is armed. *)
Theorem schedule_request_validation (Asia_Kolkata : Zone) (rq : ScheduleRequest)
  (w : World) :
  (fst (Server.post_schedule_message Asia_Kolkata rq w) = Ok Scheduled
   <-> exists l media, acceptable rq (db w) l media)
  /\ (forall l media, acceptable rq (db w) l media ->
        scheduled_messages (db (snd (Server.post_schedule_message Asia_Kolkata rq w)))
        = (scheduled_messages (db w)
           ++ [mkMsg (next_id (db w)) (rq_phone_number rq) (rq_message_text rq) media
                     (match offset l with
                      | Some o => wall l - o * 60000
                      | None => Asia_Kolkata (wall l)
                      end)
                     "pending"])%list)
  /\ (fst (Server.post_schedule_message Asia_Kolkata rq w) <> Ok Scheduled ->
      (exists error,
         fst (Server.post_schedule_message Asia_Kolkata rq w) = Ok (Rejected error))
      /\ scheduled_messages (db (snd (Server.post_schedule_message Asia_Kolkata rq w)))
         = scheduled_messages (db w))
  /\ calls (snd (Server.post_schedule_message Asia_Kolkata rq w)) = calls w
  /\ timers (snd (Server.post_schedule_message Asia_Kolkata rq w)) = timers w.
Proof.
  destruct (server_schedule_cases Asia_Kolkata rq w)
    as [(l & media & Hacc & Hrun)
       | (Hnot & error & w' & Hrun & Hrows & _ & Hcalls & Htimers)];
    rewrite Hrun; simpl.
  - split; [split; [intros _; eauto | reflexivity] |].
    split; [| split; [intros H; now contradiction H | split; reflexivity]].
    intros l' media' Hacc'.
    destruct (acceptable_unique rq (db w) l l' media media' Hacc Hacc') as [<- <-].
    reflexivity.
  - split; [split; [discriminate | intros (l & media & Hacc); now apply Hnot in Hacc] |].
    split; [intros l media Hacc; now apply Hnot in Hacc |].
    split; [intros _; split; [eauto | exact Hrows] | split; assumption].
Qed.

Lemma schedule_request_validation_witness :
  scheduled_messages (db (snd (Server.post_schedule_message IST local_request
                                 (world_of empty_db))))
  = [mkMsg 1 "+1555" (Some "hi") None 1893472200000 "pending"].
Proof.
  destruct (schedule_request_validation IST local_request (world_of empty_db))
    as (_ & Hrow & _).
  apply (Hrow (mkIso 1893492000000 None) None).
  repeat split; [discriminate | discriminate].
Defined.

(** ** Timers *)

(** [POST /api/schedule-message] of the timer-driven revision, for a request
    it accepts: the entry is stored with the date and time fields as they
    came, and exactly one piece of work for it is handed to the event loop:
    its dispatch, started and not awaited, when the instant the process
    reads from those fields does not lie ahead of the clock; else a timer
    for the time that remains, or for one millisecond when more than
    2147483647 ms remain.  The handler itself makes no request to the
    provider and writes no status.  A request that is not acceptable stores
    nothing, hands over nothing and sends nothing. *)
Theorem timer_schedule_request (local : Zone) (now : Z) (rq : ScheduleRequest)
  (w : World) :
  (forall l media,
     acceptable rq (db w) l media ->
     exists t,
       TimerServer.post_schedule_message local now rq w
       = (Ok Scheduled,
          mkWorld (with_message (Some (entry_for rq (db w) media (wall l))) (db w))
                  (calls w) (errors w) (timers w ++ [t]))
       /\ (local (wall l) <= now -> t = Started (entry_for rq (db w) media (wall l)))
       /\ (now < local (wall l) <= now + 2147483647 ->
           t = Armed (local (wall l) - now) (entry_for rq (db w) media (wall l)))
       /\ (now + 2147483647 < local (wall l) ->
           t = Armed 1 (entry_for rq (db w) media (wall l))))
  /\ ((forall l media, ~ acceptable rq (db w) l media) ->
      (exists error,
         fst (TimerServer.post_schedule_message local now rq w) = Ok (Rejected error))
      /\ scheduled_messages (db (snd (TimerServer.post_schedule_message local now rq w)))
         = scheduled_messages (db w)
      /\ calls (snd (TimerServer.post_schedule_message local now rq w)) = calls w
      /\ timers (snd (TimerServer.post_schedule_message local now rq w)) = timers w).
Proof.
  split.
  - intros l media (Hp & Ht & Hm & Hfk).
    unfold TimerServer.post_schedule_message, try_catch.
    destruct (String.eqb_spec (rq_phone_number rq) ""); [contradiction |].
    rewrite Ht. unfold bind, lift, ret. rewrite Hm. cbv beta.
    rewrite (insert_message_ok _ _ media (timestamp_in l) w Hfk).
    unfold timestamp_in. fold (entry_for rq (db w) media (wall l)).
    set (row := entry_for rq (db w) media (wall l)).
    set (w1 := mkWorld (with_message (Some row) (db w)) (calls w) (errors w) (timers w)).
    destruct (scheduleMessage_spec local now row w1)
      as (t & Hrun & (_ & Hdue & Hnear & Hfar) & _).
    exists t. rewrite Hrun. split; [reflexivity |].
    unfold TIMEOUT_MAX in *. auto.
  - intros Hnot.
    unfold TimerServer.post_schedule_message, try_catch.
    destruct (String.eqb_spec (rq_phone_number rq) "") as [Hp | Hp];
      [simpl; eauto 6 |].
    destruct (rq_scheduled_time rq) as [| | l] eqn:Ht; [simpl; eauto 6 | |];
      unfold bind, lift;
      (destruct (int4_param _) as [media | e] eqn:Hm; [| simpl; eauto 6]).
    + simpl. eauto 6.
    + unfold ret. cbv beta.
      destruct (insert_message_cases (rq_phone_number rq) (rq_message_text rq) media
                  (Some (timestamp_in l)) w)
        as [(t & _ & (_ & _ & Hfk) & _) | (e & Hrun & _)].
      * exfalso. apply (Hnot l media). repeat split; assumption.
      * rewrite Hrun. simpl. eauto 6.
Qed.

Lemma timer_schedule_request_witness :
  TimerServer.post_schedule_message UTC 1893000000000 local_request (world_of empty_db)
  = (Ok Scheduled,
     mkWorld (mkDb [] [mkMsg 1 "+1555" (Some "hi") None 1893492000000 "pending"] 2)
             [] []
             [Armed 492000000 (mkMsg 1 "+1555" (Some "hi") None 1893492000000 "pending")])
  /\ TimerServer.post_schedule_message UTC 1890000000000 local_request (world_of empty_db)
     = (Ok Scheduled,
        mkWorld (mkDb [] [mkMsg 1 "+1555" (Some "hi") None 1893492000000 "pending"] 2)
                [] []
                [Armed 1 (mkMsg 1 "+1555" (Some "hi") None 1893492000000 "pending")]).
Proof.
  assert (Hacc : acceptable local_request (db (world_of empty_db))
                   (mkIso 1893492000000 None) None)
    by (repeat split; discriminate).
  split.
  - destruct (timer_schedule_request UTC 1893000000000 local_request (world_of empty_db))
      as (Hok & _).
    destruct (Hok _ _ Hacc) as (t & Hrun & _ & Hnear & _).
    rewrite Hrun, Hnear by (simpl; unfold UTC; lia). reflexivity.
  - destruct (timer_schedule_request UTC 1890000000000 local_request (world_of empty_db))
      as (Hok & _).
    destruct (Hok _ _ Hacc) as (t & Hrun & _ & _ & Hfar).
    rewrite Hrun, Hfar by (simpl; unfold UTC; lia). reflexivity.
Defined.

(** The startup sweep of the timer-driven revision sends nothing and writes
    nothing itself and never throws: it hands exactly one piece of work to
    the event loop for each entry its query selected, in table order, after
    the work already owed; and every timer it arms has a delay the runtime
    takes, from 1 to 2147483647 ms. *)
Theorem startup_hands_over_each_selected_once (local : Zone) (now : Z)
  (clock : nat -> Z) (w : World) :
  exists added,
    TimerServer.initPendingMessages local now clock w
    = (Ok tt, mkWorld (db w) (calls w) (errors w) (timers w ++ added))
    /\ map timer_msg added = TimerServer.select_upcoming now (db w)
    /\ Forall2 (fun turn t => hands_over local (clock (fst turn)) (snd turn) t)
               (indexed (TimerServer.select_upcoming now (db w))) added
    /\ (forall delay m, In (Armed delay m) added -> 1 <= delay <= 2147483647).
Proof.
  destruct (startup_spec local now clock w) as (added & Hrun & Hall & Hbounds).
  exists added. split; [exact Hrun |]. split; [| split; [exact Hall | exact Hbounds]].
  unfold indexed in Hall. revert Hall.
  generalize 0%nat. generalize added.
  induction (TimerServer.select_upcoming now (db w)) as [| m rows IH];
    intros l start Hall; simpl in Hall; inversion Hall; subst; [reflexivity |].
  simpl. f_equal.
  - match goal with H : hands_over _ _ _ _ |- _ => exact (proj1 H) end.
  - eapply IH. eassumption.
Qed.

(** ** Payloads *)

Lemma first_category_key (table : list (string * list string)) (mimeType c : string) :
  first_category table mimeType = Some c -> In c (map fst table).
Proof.
  induction table as [| [type list] rest IH]; simpl; [discriminate |].
  destruct (includes list mimeType); [intros [= ->]; now left | right; now apply IH].
Qed.

(** Whatever the MIME type, the payload of a media message names one of the
    four kinds of media message as its [type], carries the media handle and
    a caption that is a string under that very key, and keeps its recipient
    and [messaging_product] fields. *)
Theorem media_payload_is_well_formed (mimeType to : string) (text : option string)
  (mediaId : value) :
  In (getWhatsAppPayloadType mimeType) categories
  /\ exists caption,
       media_payload to text (getWhatsAppPayloadType mimeType) mediaId
       = VObj [("messaging_product", VStr "whatsapp"); ("to", VStr to);
               ("type", VStr (getWhatsAppPayloadType mimeType));
               (getWhatsAppPayloadType mimeType,
                VObj [("id", mediaId); ("caption", VStr caption)])].
Proof.
  assert (Hcat : In (getWhatsAppPayloadType mimeType) categories).
  { unfold getWhatsAppPayloadType.
    destruct (first_category WHATSAPP_ALLOWED_TYPES mimeType) as [c |] eqn:E.
    - exact (first_category_key _ _ _ E).
    - simpl. auto. }
  split; [exact Hcat |].
  exists (match text with Some s => s | None => "" end).
  unfold media_payload.
  assert (Hcap : js_or (text_value text) (VStr "")
                 = VStr (match text with Some s => s | None => "" end))
    by (destruct text as [[| c s] |]; reflexivity).
  rewrite Hcap. simpl in Hcat.
  destruct Hcat as [<- | [<- | [<- | [<- | []]]]]; reflexivity.
Qed.

(** ** The two requests to the provider *)

(** [uploadMediaToWhatsApp] swallows every failure: it makes exactly one
    request to the media endpoint and returns the [id] of the answer, or
    [null] when the request failed or the answer has no body; it never
    throws, logs an error exactly in the two failing cases and leaves the
    tables and the timers alone. *)
Theorem upload_to_provider_never_throws (provider : Provider) (name type buffer : string)
  (w : World) :
  fst (uploadMediaToWhatsApp provider name type buffer w)
  = Ok (media_handle (provider (calls w) (PostMedia name type buffer)))
  /\ calls (snd (uploadMediaToWhatsApp provider name type buffer w))
     = (calls w ++ [PostMedia name type buffer])%list
  /\ db (snd (uploadMediaToWhatsApp provider name type buffer w)) = db w
  /\ timers (snd (uploadMediaToWhatsApp provider name type buffer w)) = timers w
  /\ (errors (snd (uploadMediaToWhatsApp provider name type buffer w)) = errors w
      <-> exists data,
            provider (calls w) (PostMedia name type buffer) = HttpOk data
            /\ data <> VNull /\ data <> VUndef).
Proof.
  unfold uploadMediaToWhatsApp, try_catch, bind, axios_post, lift, media_handle,
    console_error, ret.
  assert (Hgrow : forall (l : list (string * string)) x, (l ++ [x])%list <> l).
  { intros l x H. apply (f_equal (@List.length _)) in H.
    rewrite length_app in H. simpl in H. lia. }
  destruct (provider (calls w) (PostMedia name type buffer)) as [data | msg]; simpl.
  - destruct data; simpl; repeat split; try reflexivity;
      try (intros H; now apply Hgrow in H);
      try (intros (d & [= <-] & Hn & Hu); congruence);
      try (intros _; eexists; repeat split; discriminate).
  - repeat split; try reflexivity.
    + intros H. now apply Hgrow in H.
    + intros (d & Hd & _). discriminate Hd.
Qed.

(** [sendWhatsAppMessage] of [server.js] never throws and touches neither
    the tables nor the timers; it returns the message id of the provider's
    answer to the message request ([messages[0].id]) when there is one, and
    [null] in every other case: the upload gave no handle, the message
    request failed, or its answer names no message. *)
Theorem send_returns_the_message_id (provider : Provider) (to : string)
  (text : option string) (mediaRow : option MediaRow) (w : World) :
  fst (Server.sendWhatsAppMessage provider to text mediaRow w)
  = Ok (match mediaRow with
        | None =>
            js_or (message_id_of
                     (provider (calls w) (PostMessages (text_payload to text))))
                  VNull
        | Some row =>
            let mediaId := media_handle (provider (calls w) (upload_of row)) in
            if truthy mediaId
            then js_or (message_id_of
                          (provider (calls w ++ [upload_of row])%list
                             (PostMessages
                                (media_payload to text
                                   (getWhatsAppPayloadType (ml_type row)) mediaId))))
                       VNull
            else VNull
        end)
  /\ db (snd (Server.sendWhatsAppMessage provider to text mediaRow w)) = db w
  /\ timers (snd (Server.sendWhatsAppMessage provider to text mediaRow w)) = timers w.
Proof.
  destruct (server_send_total provider to text mediaRow w) as (v & w' & Hsend & Hdb & Htm).
  split; [| now rewrite Hsend].
  destruct mediaRow as [row |]; [| apply server_text_send].
  clear v w' Hsend Hdb Htm.
  destruct (uploadMediaToWhatsApp_spec provider w row) as (w1 & Hup & _ & Hcalls & _).
  unfold Server.sendWhatsAppMessage, try_catch, bind.
  rewrite Hup. clear Hup. cbv zeta.
  generalize (media_handle (provider (calls w) (upload_of row))). intros mediaId.
  destruct (truthy mediaId); [| reflexivity].
  unfold ret at 1. unfold axios_post, message_id_of. rewrite Hcalls.
  destruct (provider _ _) as [data | msg]; simpl; [| reflexivity].
  destruct (get_prop data "messages"); reflexivity.
Qed.

(** ** Recipients typed into the admin page *)

Lemma drop_spaces_suffix (s : list ascii) : exists pre, s = (pre ++ drop_spaces s)%list.
Proof.
  induction s as [| c s (pre & IH)]; [now exists [] |].
  simpl. destruct (is_space c); [| now exists []].
  exists (c :: pre). simpl. now rewrite <- IH.
Qed.

Lemma drop_spaces_head (s : list ascii) :
  drop_spaces s = [] \/ exists c rest, drop_spaces s = c :: rest /\ is_space c = false.
Proof.
  induction s as [| c s IH]; [now left |].
  simpl. destruct (is_space c) eqn:E; [exact IH | right; eauto].
Qed.

Lemma trim_chars_In (s : list ascii) (c : ascii) : In c (trim_chars s) -> In c s.
Proof.
  unfold trim_chars. intros Hin. apply in_rev in Hin.
  destruct (drop_spaces_suffix (rev (drop_spaces s))) as (pre & Hpre).
  assert (Hin' : In c (rev (drop_spaces s)))
    by (rewrite Hpre; apply in_or_app; now right).
  apply in_rev in Hin'.
  destruct (drop_spaces_suffix s) as (pre' & Hpre').
  rewrite Hpre'. apply in_or_app. now right.
Qed.

Lemma trim_chars_ends (s : list ascii) :
  trim_chars s = []
  \/ (exists c rest, trim_chars s = c :: rest /\ is_space c = false)
     /\ (exists init c, trim_chars s = (init ++ [c])%list /\ is_space c = false).
Proof.
  unfold trim_chars.
  destruct (drop_spaces_suffix (rev (drop_spaces s))) as (pre & Hpre).
  destruct (drop_spaces_head (rev (drop_spaces s))) as [Hnil | (c & rest & Hv & Hc)].
  - left. now rewrite Hnil.
  - right. rewrite Hv in *. split.
    + assert (Hu : drop_spaces s = (rev (c :: rest) ++ rev pre)%list)
        by (rewrite <- rev_app_distr, <- Hpre; now rewrite rev_involutive).
      destruct (drop_spaces_head s) as [Hnil | (c0 & rest0 & Hu0 & Hc0)].
      * rewrite Hnil in Hu. destruct (rev (c :: rest)) eqn:E; [| discriminate Hu].
        apply (f_equal (@List.length _)) in E. rewrite length_rev in E. discriminate E.
      * rewrite Hu0 in Hu. destruct (rev (c :: rest)) as [| c1 rest1] eqn:E.
        -- apply (f_equal (@List.length _)) in E. rewrite length_rev in E. discriminate E.
        -- simpl in Hu. inversion Hu; subst. eauto.
    + simpl. eauto.
Qed.

Lemma split_runs_pieces (s : list ascii) :
  forall piece in_run p c,
    In p (split_runs piece in_run s) -> In c p ->
    In c piece \/ (In c s /\ is_separator c = false).
Proof.
  induction s as [| x s IH]; intros piece in_run p c Hp Hc; simpl in Hp.
  - destruct Hp as [<- | []]. left. now apply in_rev.
  - destruct (is_separator x) eqn:Ex.
    + destruct in_run.
      * destruct (IH [] true p c Hp Hc) as [[] | [Hin Hs]]. right. split; [now right | exact Hs].
      * destruct Hp as [<- | Hp]; [left; now apply in_rev |].
        destruct (IH [] true p c Hp Hc) as [[] | [Hin Hs]]. right. split; [now right | exact Hs].
    + destruct (IH (x :: piece) false p c Hp Hc) as [[<- | Hin] | [Hin Hs]].
      * right. split; [now left | exact Ex].
      * now left.
      * right. split; [now right | exact Hs].
Qed.

(** The recipients the schedule form sends requests for are clean: each is
    non-empty, holds no comma and no line break, and neither starts nor ends
    with white space; and each of its characters was typed into the field.
    When the field holds nothing but white space, commas and line breaks
    there is no recipient at all. *)
Theorem recipients_are_clean (value : string) :
  (forall p, In p (phones_of value) ->
     p <> ""
     /\ (forall c, In c (list_ascii_of_string p) ->
           is_separator c = false /\ In c (list_ascii_of_string value))
     /\ (exists c rest, list_ascii_of_string p = c :: rest /\ is_space c = false)
     /\ (exists init c, list_ascii_of_string p = (init ++ [c])%list /\ is_space c = false))
  /\ ((forall c, In c (list_ascii_of_string value) -> is_space c || is_separator c = true) ->
      phones_of value = []).
Proof.
  unfold phones_of.
  set (typed := list_ascii_of_string value).
  assert (Hpiece : forall q c,
             In q (split_runs [] false (trim_chars typed)) -> In c (trim_chars q) ->
             is_separator c = false /\ In c typed).
  { intros q c Hq Hc. apply trim_chars_In in Hc.
    destruct (split_runs_pieces _ [] false q c Hq Hc) as [[] | [Hin Hs]].
    split; [exact Hs | now apply trim_chars_In]. }
  split.
  - intros p Hp. apply in_map_iff in Hp. destruct Hp as (t & <- & Ht).
    apply filter_In in Ht. destruct Ht as [Ht Hne].
    apply in_map_iff in Ht. destruct Ht as (q & <- & Hq).
    rewrite list_ascii_of_string_of_list_ascii.
    destruct (trim_chars_ends q) as [Hnil | [Hfirst Hlast]];
      [rewrite Hnil in Hne; discriminate Hne |].
    split; [| split; [| split; assumption]].
    + destruct Hfirst as (c & rest & Heq & _). rewrite Heq. simpl. discriminate.
    + intros c Hc. now apply (Hpiece q).
  - intros Hall.
    assert (Hnone : forall q, In q (split_runs [] false (trim_chars typed)) ->
                              is_empty (trim_chars q) = true).
    { intros q Hq. destruct (trim_chars_ends q) as [-> | [(c & rest & Heq & Hc) _]];
        [reflexivity |].
      exfalso. assert (Hin : In c (trim_chars q)) by (rewrite Heq; now left).
      destruct (Hpiece q c Hq Hin) as [Hs Ht].
      specialize (Hall c Ht). rewrite Hc, Hs in Hall. discriminate Hall. }
    clear Hpiece. revert Hnone.
    induction (split_runs [] false (trim_chars typed)) as [| q l IH]; intros Hnone;
      [reflexivity |].
    simpl. rewrite (Hnone q (or_introl eq_refl)). simpl.
    apply IH. intros q' Hq'. apply Hnone. now right.
Qed.

Lemma recipients_are_clean_witness :
  phones_of ", " = []
  /\ forall p, In p (phones_of typed_recipients) -> p <> "".
Proof.
  split.
  - apply (recipients_are_clean ", ").
    intros c [<- | [<- | []]]; reflexivity.
  - intros p Hp. now apply (proj1 (recipients_are_clean typed_recipients) p).
Defined.

(** ** A timer going off *)


(** ** From the request to the sweep *)

Lemma Forall2_both {A : Type} (R1 R2 : A -> A -> Prop) (l l' : list A) :
  Forall2 R1 l l' -> Forall2 R2 l l' -> Forall2 (fun a b => R1 a b /\ R2 a b) l l'.
Proof.
  intros H1. induction H1; intros H2; inversion H2; subst; constructor; auto.
Qed.

Lemma Forall2_In_l {A : Type} (R : A -> A -> Prop) (l l' : list A) (a : A) :
  Forall2 R l l' -> In a l -> exists b, In b l' /\ R a b.
Proof.
  induction 1 as [| x y l l' Hxy _ IH]; intros Hin; [contradiction |].
  destruct Hin as [<- | Hin].
  - exists y. split; [now left | exact Hxy].
  - destruct (IH Hin) as (b & Hb & Hr). exists b. split; [now right | exact Hr].
Qed.

(** A scheduled entry is sent by the first sweep at or after its instant and
    by none before: once [server.js] has stored the entry for an acceptable
    request (the ids in the table being distinct and below the sequence),
    with the instant of the request's date-time as the handler found it, a
    sweep whose clock reads less than that instant leaves the entry as it
    was stored, and a sweep whose clock has reached it writes [sent] or
    [failed] to it. *)
Theorem scheduled_entry_is_swept_when_due (provider : Provider) (Asia_Kolkata : Zone)
  (rq : ScheduleRequest) (l : IsoTime) (media : option Z) (nowUTC : Z) (w : World) :
  acceptable rq (db w) l media ->
  ids_fresh (db w) ->
  (nowUTC < instant_in Asia_Kolkata l ->
   In (entry_for rq (db w) media (instant_in Asia_Kolkata l))
      (scheduled_messages
         (db (snd (Server.processDueMessages provider nowUTC
                     (snd (Server.post_schedule_message Asia_Kolkata rq w)))))))
  /\ (instant_in Asia_Kolkata l <= nowUTC ->
      exists st,
        terminal st
        /\ In (mkMsg (next_id (db w)) (rq_phone_number rq) (rq_message_text rq) media
                     (instant_in Asia_Kolkata l) st)
              (scheduled_messages
                 (db (snd (Server.processDueMessages provider nowUTC
                             (snd (Server.post_schedule_message Asia_Kolkata rq w))))))).
Proof.
  intros Hacc Hfresh.
  destruct (server_schedule_cases Asia_Kolkata rq w)
    as [(l' & media' & Hacc' & Hrun) | (Hnot & _)]; [| now apply Hnot in Hacc].
  destruct (acceptable_unique rq (db w) l' l media' media Hacc' Hacc) as [-> ->].
  rewrite Hrun. cbn [snd].
  set (row := entry_for rq (db w) media (instant_in Asia_Kolkata l)).
  set (w1 := mkWorld (with_message (Some row) (db w)) (calls w) (errors w) (timers w)).
  assert (Hin : In row (scheduled_messages (db w1)))
    by (simpl; apply in_or_app; right; now left).
  destruct (server_sweep_quiet provider nowUTC w1) as [(_ & _ & Htouched) _].
  split.
  - intros Hearly.
    apply (Forall2_touched_kept _ _ _ row Htouched Hin).
    intros Hsel. apply in_map_iff in Hsel. destruct Hsel as (m & Hid & Hm).
    apply select_due_In in Hm. destruct Hm as (Hm & _ & Hdue).
    simpl in Hm. apply in_app_or in Hm. destruct Hm as [Hm | [<- | []]].
    + destruct Hfresh as [_ Hlt]. specialize (Hlt m Hm).
      unfold row, entry_for in Hid. simpl in Hid. lia.
    + unfold row, entry_for in Hdue. simpl in Hdue. lia.
  - intros Hdue.
    destruct (server_sweep_spec provider nowUTC w1) as (w2 & Hsweep & Hsettled).
    rewrite Hsweep in *. cbn [snd] in *.
    pose proof (Forall2_both _ _ _ _ Htouched Hsettled) as Hboth.
    destruct (Forall2_In_l _ _ _ row Hboth Hin) as (m' & Hm' & Ht & (_ & Hterm)).
    assert (Hsel : In (sm_id row) (map sm_id (select_due nowUTC (db w1)))).
    { apply select_due_ids; [exact Hin | reflexivity |].
      unfold row, entry_for. simpl. exact Hdue. }
    specialize (Hterm Hsel).
    destruct Ht as [-> | (_ & st & Hst & ->)].
    + exfalso. unfold row, entry_for in Hterm. simpl in Hterm.
      destruct Hterm as [H | H]; discriminate H.
    + exists st. split; assumption.
Qed.

Lemma scheduled_entry_is_swept_when_due_witness :
  In (mkMsg 1 "+1555" (Some "hi") None 1893472200000 "pending")
     (scheduled_messages
        (db (snd (Server.processDueMessages (accepting "wamid.1") 1893472199999
                    (snd (Server.post_schedule_message IST local_request
                            (world_of empty_db)))))))
  /\ exists st,
       terminal st
       /\ In (mkMsg 1 "+1555" (Some "hi") None 1893472200000 st)
             (scheduled_messages
                (db (snd (Server.processDueMessages (accepting "wamid.1") 1893472200000
                            (snd (Server.post_schedule_message IST local_request
                                    (world_of empty_db))))))).
Proof.
  assert (Hacc : acceptable local_request (db (world_of empty_db))
                   (mkIso 1893492000000 None) None)
    by (repeat split; discriminate).
  split.
  - apply (scheduled_entry_is_swept_when_due (accepting "wamid.1") IST local_request
             (mkIso 1893492000000 None) None 1893472199999 (world_of empty_db) Hacc
             (proj1 empty_db_invariants)).
    unfold instant_in, IST, ms_per_minute; simpl; lia.
  - apply (scheduled_entry_is_swept_when_due (accepting "wamid.1") IST local_request
             (mkIso 1893492000000 None) None 1893472200000 (world_of empty_db) Hacc
             (proj1 empty_db_invariants)).
    unfold instant_in, IST, ms_per_minute; simpl; lia.
Defined.

(** * Guards *)

(** ** Dispatching an entry twice *)

Lemma server_process_one_writes (provider : Provider) (msg : Msg) (w : World) :
  exists st c extra,
    terminal st
    /\ calls (snd (Server.process_one provider msg w)) = (calls w ++ c :: extra)%list
    /\ Forall2 (marked (sm_id msg) st) (scheduled_messages (db w))
               (scheduled_messages (db (snd (Server.process_one provider msg w)))).
Proof.
  destruct (server_process_one_marks provider msg w) as (st & w' & Hrun & Hst & Hdb).
  destruct (server_send_calls provider (sm_phone_number msg) (sm_message_text msg)
              (media_of msg (db w)) w) as (c & extra & Hcalls).
  exists st, c, extra. split; [exact Hst |]. split.
  - now rewrite server_process_one_calls.
  - rewrite Hrun. cbn [snd]. rewrite Hdb. apply update_status_writes.
Qed.

Lemma timer_sendAndMark_writes (provider : Provider) (msg : Msg) (w : World) :
  exists st c extra,
    terminal st
    /\ calls (snd (TimerServer.sendAndMark provider msg w)) = (calls w ++ c :: extra)%list
    /\ Forall2 (marked (sm_id msg) st) (scheduled_messages (db w))
               (scheduled_messages (db (snd (TimerServer.sendAndMark provider msg w)))).
Proof.
  destruct (timer_sendAndMark_spec provider msg w)
    as (st & w' & c & extra & Hrun & Hst & Hdb & _ & Hcalls).
  exists st, c, extra. rewrite Hrun. cbn [snd]. split; [exact Hst |].
  split; [exact Hcalls |]. rewrite Hdb. apply update_status_writes.
Qed.

(** What a sweep leaves for later sweeps: entries it did not touch, which
    were pending and not yet due at its reading of the clock. *)
Lemma swept_leaves_upcoming (provider : Provider) (now now' : Z) (w : World) (m : Msg) :
  In m (select_due now' (db (snd (Server.processDueMessages provider now w)))) ->
  In m (scheduled_messages (db w)) /\ sm_status m = "pending" /\ now < sm_scheduled_time m.
Proof.
  intros Hsel. apply select_due_In in Hsel. destruct Hsel as (Hin & Hp & _).
  destruct (server_sweep_quiet provider now w) as [(_ & _ & Htouched) _].
  destruct (server_sweep_spec provider now w) as (w' & Hrun & Hsettled).
  rewrite Hrun in *. cbn [snd] in *.
  pose proof (Forall2_both _ _ _ _ Htouched Hsettled) as Hboth.
  destruct (Forall2_pick_r _ _ _ m Hboth Hin) as (m0 & Hm0 & Ht & (_ & Hterm)).
  assert (Hnot : ~ terminal (sm_status m))
    by (rewrite Hp; intros [H | H]; discriminate H).
  destruct Ht as [-> | (_ & st & Hst & ->)]; [| contradiction].
  split; [exact Hm0 |]. split; [exact Hp |].
  destruct (Z.lt_ge_cases now (sm_scheduled_time m0)) as [Hlater | Hdue]; [exact Hlater |].
  exfalso. apply Hnot, Hterm. apply select_due_ids; [exact Hm0 | exact Hp | lia].
Qed.

(** C4, as the code has it: no dispatch re-checks the status.  The timer
    callback and the loop body of the sweep each make at least one request
    to the provider and then write [sent] or [failed] to the entries with
    the message's id, whatever their status was, leaving every other entry
    as it was.  What keeps a sweep from dispatching an entry twice is its
    query alone: a sweep leaves no entry pending and due at its reading of
    the clock, so whatever a later sweep selects, at whatever reading, was
    pending and not yet due at the earlier one; a sweep writes to no entry
    but those it selected, and one that selects nothing, as every sweep at
    the same or an earlier reading does, makes no request and writes
    nothing. *)
Theorem C4_only_the_query_guards (provider : Provider) (now : Z) (w : World) (msg : Msg) :
  (forall now',
     now' <= now ->
     select_due now' (db (snd (Server.processDueMessages provider now w))) = [])
  /\ (forall now' m,
        In m (select_due now' (db (snd (Server.processDueMessages provider now w)))) ->
        In m (scheduled_messages (db w)) /\ sm_status m = "pending"
        /\ now < sm_scheduled_time m)
  /\ (forall now' w0,
        select_due now' (db w0) = [] ->
        Server.processDueMessages provider now' w0 = (Ok tt, w0))
  /\ (forall now' w0,
        status_only (fun i => In i (map sm_id (select_due now' (db w0))))
                    (db w0) (db (snd (Server.processDueMessages provider now' w0))))
  /\ (forall w',
        w' = snd (TimerServer.sendAndMark provider msg w)
        \/ w' = snd (Server.process_one provider msg w) ->
        exists st c extra,
          terminal st
          /\ calls w' = (calls w ++ c :: extra)%list
          /\ Forall2 (marked (sm_id msg) st)
                     (scheduled_messages (db w)) (scheduled_messages (db w'))).
Proof.
  split; [| split; [| split; [| split]]].
  - intros now' Hle.
    destruct (select_due now' _) as [| m rest] eqn:E; [reflexivity |].
    assert (Hin : In m (select_due now' (db (snd (Server.processDueMessages provider now w)))))
      by (rewrite E; now left).
    pose proof (swept_leaves_upcoming provider now now' w m Hin) as (_ & _ & Hlater).
    apply select_due_In in Hin. lia.
  - intros now' m. apply swept_leaves_upcoming.
  - intros now' w0 Hnone.
    unfold Server.processDueMessages, try_catch, bind, get_db.
    now rewrite Hnone.
  - intros now' w0. apply server_sweep_quiet.
  - intros w' [-> | ->];
      [apply timer_sendAndMark_writes | apply server_process_one_writes].
Qed.

Lemma C4_witness :
  Server.processDueMessages (accepting "wamid.1") 900
    (snd (Server.processDueMessages (accepting "wamid.1") 1000
            (world_of (text_db "pending"))))
  = (Ok tt, mkWorld (text_db "sent") [PostMessages (text_payload "+1555" (Some "hi"))] [] []).
Proof.
  destruct (C4_only_the_query_guards (accepting "wamid.1") 1000
              (world_of (text_db "pending")) (text_msg "pending"))
    as (Hnone & _ & Hidle & _).
  rewrite (Hidle 900) by (apply Hnone; lia). reflexivity.
Defined.

(** C4 as stated fails: two triggers dispatch the entry with id 5, and each
    makes its provider call and its status write.  The queries of two
    sweeps of [server.js] both ran while the entry was pending (the second
    request to [/api/check-pending] came before the first had written the
    status); both loops then submit the message: two message requests for
    one entry, and [sent] written twice. *)
Lemma C4_counterexample :
  let w := world_of (text_db "pending") in
  let first := select_due 2000 (db w) in
  let second := select_due 2000 (db w) in
  let one := snd (for_of first (Server.process_one (accepting "wamid.1")) w) in
  let both := snd (for_of second (Server.process_one (accepting "wamid.1")) one) in
  first = [text_msg "pending"]
  /\ second = [text_msg "pending"]
  /\ one = mkWorld (text_db "sent") [PostMessages (text_payload "+1555" (Some "hi"))] [] []
  /\ both = mkWorld (text_db "sent")
                    [PostMessages (text_payload "+1555" (Some "hi"));
                     PostMessages (text_payload "+1555" (Some "hi"))]
                    [] [].
Proof. repeat split. Qed.

(** In the timer-driven revision the triggers are timers.  A request is
    served while the query of the startup sweep is under way: the handler
    arms a timer for the new entry, and the sweep, whose query finds the
    entry pending, arms another.  Each timer runs the dispatch when it goes
    off: two message requests for one entry. *)
Lemma timer_and_startup_sweep_send_twice :
  let provider := accepting "wamid.1" in
  let row := mkMsg 1 "+1555" (Some "hi") None 1000 "pending" in
  let created := snd (TimerServer.post_schedule_message UTC 400
                        (mkRequest "+1555" (Some "hi") (VStr "")
                           (TimeLiteral (mkIso 1000 None)))
                        (world_of empty_db)) in
  let swept := snd (TimerServer.initPendingMessages UTC 300 (fun _ => 450) created) in
  timers created = [Armed 600 row]
  /\ timers swept = [Armed 600 row; Armed 550 row]
  /\ snd (TimerServer.fire provider (Armed 600 row)
            (snd (TimerServer.fire provider (Armed 550 row) swept)))
     = mkWorld (mkDb [] [mkMsg 1 "+1555" (Some "hi") None 1000 "sent"] 2)
               [PostMessages (text_payload "+1555" (Some "hi"));
                PostMessages (text_payload "+1555" (Some "hi"))]
               [] [Armed 600 row; Armed 550 row].
Proof. repeat split. Qed.

(** ** The startup sweep *)

Lemma indexed_from_nth {A : Type} (xs : list A) :
  forall start i x,
    nth_error xs i = Some x ->
    In ((start + i)%nat, x) (combine (seq start (List.length xs)) xs).
Proof.
  induction xs as [| y rest IH]; intros start i x Hnth; [now destruct i |].
  destruct i as [| i]; simpl in *.
  - inversion Hnth; subst. left. f_equal. lia.
  - right. replace (start + S i)%nat with (S start + i)%nat by lia. now apply IH.
Qed.

Lemma indexed_nth {A : Type} (xs : list A) (i : nat) (x : A) :
  nth_error xs i = Some x -> In (i, x) (indexed xs).
Proof. intros Hnth. exact (indexed_from_nth xs 0 i x Hnth). Qed.

(** C3, as the code has it: at startup the sweep selects the entries with
    [status = pending] and [scheduled_time >= now], whatever their distance
    from now, and hands each to [scheduleMessage], as the creation handler
    does, sending and writing nothing itself.  [scheduleMessage] reads the
    clock again: an entry still ahead of that reading gets a timer for the
    time that remains, which the runtime shortens to one millisecond when
    it exceeds 2147483647 ms; an entry the clock has reached meanwhile has
    its dispatch started at once.  Entries whose due time had passed at the
    time of the query are not selected: when every pending entry is overdue
    the sweep changes nothing. *)
Theorem C3_startup_arms_upcoming_only (local : Zone) (now : Z) (clock : nat -> Z)
  (w : World) :
  (forall m,
     In m (TimerServer.select_upcoming now (db w))
     <-> In m (scheduled_messages (db w)) /\ sm_status m = "pending"
         /\ now <= sm_scheduled_time m)
  /\ TimerServer.initPendingMessages local now clock w
     = for_of (indexed (TimerServer.select_upcoming now (db w)))
              (fun turn => TimerServer.scheduleMessage local (clock (fst turn)) (snd turn))
              w
  /\ (exists added,
        TimerServer.initPendingMessages local now clock w
        = (Ok tt, mkWorld (db w) (calls w) (errors w) (timers w ++ added))
        /\ forall i m,
             nth_error (TimerServer.select_upcoming now (db w)) i = Some m ->
             (local (sm_scheduled_time m) <= clock i -> In (Started m) added)
             /\ (clock i < local (sm_scheduled_time m) <= clock i + 2147483647 ->
                 In (Armed (local (sm_scheduled_time m) - clock i) m) added)
             /\ (clock i + 2147483647 < local (sm_scheduled_time m) ->
                 In (Armed 1 m) added))
  /\ ((forall m, In m (scheduled_messages (db w)) -> sm_status m = "pending" ->
                 sm_scheduled_time m < now) ->
      TimerServer.initPendingMessages local now clock w = (Ok tt, w)).
Proof.
  destruct (startup_spec local now clock w) as (added & Hinit & Hall & _).
  split; [intros m; apply select_upcoming_In |].
  split.
  - rewrite Hinit.
    destruct (startup_loop local clock (indexed (TimerServer.select_upcoming now (db w))) w)
      as (added' & Hrun & _).
    revert Hinit. unfold TimerServer.initPendingMessages, try_catch, bind, get_db.
    rewrite Hrun. now intros [= <-].
  - split.
    + exists added. split; [exact Hinit |].
      intros i m Hnth. apply indexed_nth in Hnth.
      destruct (Forall2_pick _ _ _ _ Hall Hnth) as (t & Ht & (_ & Hdue & Hnear & Hfar)).
      simpl in *. unfold TIMEOUT_MAX in *.
      split; [intros H; now rewrite <- (Hdue H) |].
      split; [intros H; now rewrite <- (Hnear H) | intros H; now rewrite <- (Hfar H)].
    + intros Hpast.
      unfold TimerServer.initPendingMessages, try_catch, bind, get_db.
      unfold TimerServer.select_upcoming. rewrite filter_none; [reflexivity |].
      intros m Hin. destruct (String.eqb_spec (sm_status m) "pending") as [Hp | Hp];
        [| reflexivity].
      simpl. apply Z.leb_gt. now apply Hpast.
Qed.

Lemma C3_witness :
  (exists added,
     TimerServer.initPendingMessages UTC 400 (fun _ => 450) (world_of (text_db "pending"))
     = (Ok tt, mkWorld (text_db "pending") [] [] added)
     /\ In (Armed 550 (text_msg "pending")) added)
  /\ TimerServer.initPendingMessages UTC 5000 (fun _ => 5001) (world_of (text_db "pending"))
     = (Ok tt, world_of (text_db "pending")).
Proof.
  split.
  - destruct (C3_startup_arms_upcoming_only UTC 400 (fun _ => 450)
                (world_of (text_db "pending"))) as (_ & _ & (added & Hrun & Hwork) & _).
    exists added. split; [exact Hrun |].
    destruct (Hwork 0%nat (text_msg "pending") eq_refl) as (_ & Hnear & _).
    apply Hnear. simpl. unfold UTC. lia.
  - destruct (C3_startup_arms_upcoming_only UTC 5000 (fun _ => 5001)
                (world_of (text_db "pending"))) as (_ & _ & _ & Hpast).
    apply Hpast. intros m [<- | []] _. simpl. lia.
Defined.

(** C3 as stated fails: the entry is pending and was due at 1000; the
    startup sweep at 5000 does not select it, so it hands nothing to the
    event loop, neither a dispatch nor a timer, whereas [scheduleMessage],
    which the creation handler calls, starts its dispatch at once. *)
Lemma C3_counterexample :
  sm_status (text_msg "pending") = "pending"
  /\ sm_scheduled_time (text_msg "pending") <= 5000
  /\ TimerServer.initPendingMessages UTC 5000 (fun _ => 5001) (world_of (text_db "pending"))
     = (Ok tt, world_of (text_db "pending"))
  /\ TimerServer.scheduleMessage UTC 5001 (text_msg "pending") (world_of (text_db "pending"))
     = (Ok tt, mkWorld (text_db "pending") [] [] [Started (text_msg "pending")]).
Proof. repeat split. simpl. lia. Qed.

(** ** Media that cannot be sent *)

Lemma timer_send_requests (provider : Provider) (to : string) (text : option string)
  (mediaRow : option MediaRow) (w : World) :
  calls (snd (TimerServer.sendWhatsAppMessage provider to text mediaRow w))
  = (calls w ++ requests_of provider w to text mediaRow)%list.
Proof.
  destruct mediaRow as [row |]; simpl.
  - destruct (truthy (media_handle (provider (calls w) (upload_of row)))) eqn:E.
    + destruct (uploadMediaToWhatsApp_spec provider w row) as (w1 & Hup & _ & Hcalls & _).
      unfold TimerServer.sendWhatsAppMessage, try_catch, bind.
      rewrite Hup, E. unfold ret at 1. unfold axios_post. rewrite Hcalls.
      set (payload := media_payload _ _ _ _).
      destruct (provider _ (PostMessages payload)) as [data | msg]; simpl;
        now rewrite <- app_assoc.
    + destruct (timer_send_upload_fails provider w to text row E)
        as (w1 & Hsend & _ & Hcalls).
      now rewrite Hsend.
  - unfold TimerServer.sendWhatsAppMessage, try_catch, bind.
    unfold ret at 1. unfold axios_post.
    now destruct (provider _ _) as [data | msg].
Qed.

Lemma timer_sendAndMark_calls (provider : Provider) (msg : Msg) (w : World) :
  calls (snd (TimerServer.sendAndMark provider msg w))
  = (calls w ++ requests_of provider w (sm_phone_number msg) (sm_message_text msg)
                  (media_of msg (db w)))%list.
Proof.
  rewrite <- timer_send_requests.
  destruct (timer_send_spec provider (sm_phone_number msg) (sm_message_text msg)
              (media_of msg (db w)) w) as (ok & w1 & c & extra & Hsend & _).
  unfold TimerServer.sendAndMark, try_catch, bind.
  rewrite resolve_media_spec, Hsend. now destruct ok.
Qed.












(** ** Media references *)

Lemma dispatch_uploads_first (provider : Provider) (w : World) (msg : Msg) (k : Z)
  (row : MediaRow) :
  sm_media_id msg = Some k -> k <> 0 -> select_media k (db w) = Some row ->
  requests_of provider w (sm_phone_number msg) (sm_message_text msg) (media_of msg (db w))
  = upload_of row
    :: (if truthy (media_handle (provider (calls w) (upload_of row)))
        then [PostMessages
                (media_payload (sm_phone_number msg) (sm_message_text msg)
                   (getWhatsAppPayloadType (ml_type row))
                   (media_handle (provider (calls w) (upload_of row))))]
        else []).
Proof.
  intros Hk Hnz Hsel. unfold media_of. rewrite Hk.
  destruct (Z.eqb_spec k 0); [contradiction |]. now rewrite Hsel.
Qed.

(** C2, as the code has it: a reference to a missing media row cannot be
    stored.  A scheduling request whose [media_id] names no row of the media
    library is refused by the foreign key: nothing is stored and the
    provider is not contacted; and no handler removes a media row, so
    whatever requests, sweeps, receipts and timers follow one another,
    every [media_id] of a stored entry keeps naming a stored media row.
    The dispatch relies on this and does not check the reference itself.
    For an entry whose [media_id] is not zero and names a stored media row,
    the first request to the provider is the upload of that row, and the
    only message submitted after it is the media message: never the text
    alone.  This holds for the loop body of the sweep and for the dispatch
    of the timers. *)
Theorem C2_media_entries_never_send_text (provider : Provider) (Asia_Kolkata : Zone)
  (events : list Event) (w : World) :
  (forall rq k,
     int4_param (js_or (rq_media_id rq) VNull) = Ok (Some k) ->
     select_media k (db w) = None ->
     (exists error,
        fst (Server.post_schedule_message Asia_Kolkata rq w) = Ok (Rejected error))
     /\ scheduled_messages (db (snd (Server.post_schedule_message Asia_Kolkata rq w)))
        = scheduled_messages (db w)
     /\ calls (snd (Server.post_schedule_message Asia_Kolkata rq w)) = calls w)
  /\ (refs_resolve (db w) ->
      forall m k,
        In m (scheduled_messages (db (run provider events w))) ->
        sm_media_id m = Some k ->
        exists row, select_media k (db (run provider events w)) = Some row)
  /\ (forall msg k row w',
        sm_media_id msg = Some k -> k <> 0 -> select_media k (db w) = Some row ->
        w' = snd (Server.process_one provider msg w)
        \/ w' = snd (TimerServer.sendAndMark provider msg w) ->
        calls w'
        = (calls w ++
           upload_of row
           :: (if truthy (media_handle (provider (calls w) (upload_of row)))
               then [PostMessages
                       (media_payload (sm_phone_number msg) (sm_message_text msg)
                          (getWhatsAppPayloadType (ml_type row))
                          (media_handle (provider (calls w) (upload_of row))))]
               else []))%list).
Proof.
  split; [| split].
  - intros rq k. apply server_schedule_rejects_dangling.
  - intros Hinv m k Hin Hk.
    assert (Hrefs : refs_resolve (db (run provider events w)))
      by (eapply evolves_keeps_refs; [apply run_evolves | exact Hinv]).
    specialize (Hrefs m k Hin Hk).
    destruct (select_media k (db (run provider events w))) as [row |];
      [now exists row | contradiction].
  - intros msg k row w' Hk Hnz Hsel Hw'.
    rewrite <- (dispatch_uploads_first provider w msg k row Hk Hnz Hsel).
    destruct Hw' as [-> | ->].
    + now rewrite server_process_one_calls, server_send_requests.
    + apply timer_sendAndMark_calls.
Qed.

Lemma C2_witness :
  ((exists error,
      fst (Server.post_schedule_message IST photo_request (world_of empty_db))
      = Ok (Rejected error))
   /\ scheduled_messages (db (snd (Server.post_schedule_message IST photo_request
                                     (world_of empty_db)))) = []
   /\ calls (snd (Server.post_schedule_message IST photo_request (world_of empty_db))) = [])
  /\ (exists row,
        select_media 1 (db (run (accepting "wamid.1") sample_run (world_of empty_db)))
        = Some row)
  /\ calls (snd (Server.process_one (accepting "wamid.1") photo_msg (world_of photo_db)))
     = [PostMedia "cat.jpg" "image/jpeg" "JFIF";
        PostMessages
          (VObj [("messaging_product", VStr "whatsapp"); ("to", VStr "+1555");
                 ("type", VStr "image");
                 ("image", VObj [("id", VStr "media-1"); ("caption", VStr "hi")])])].
Proof.
  destruct (C2_media_entries_never_send_text (accepting "wamid.1") IST sample_run
              (world_of empty_db)) as (Hreject & Hrefs & _).
  destruct (C2_media_entries_never_send_text (accepting "wamid.1") IST []
              (world_of photo_db)) as (_ & _ & Hcalls).
  split; [| split].
  - apply (Hreject photo_request 7); reflexivity.
  - apply (Hrefs (proj1 (proj2 empty_db_invariants))
             (mkMsg 1 "+1555" (Some "hi") (Some 1) 1893472200000 "failed"));
      [simpl; auto | reflexivity].
  - rewrite (Hcalls photo_msg 7 jpeg _ eq_refl ltac:(lia) eq_refl (or_introl eq_refl)).
    reflexivity.
Defined.

(** C2 as stated fails on the dispatch, with the foreign key in force.  The
    dispatch works on the row it was handed, not on the table.
    In [server.js]: the query of a sweep selects the text entry 5 and entry
    6, which names media row 7; while the sweep sends the first message,
    entry 6 and then media row 7 are deleted (the database refuses to delete
    the media row first).  In its turn for entry 6 the lookup finds no row
    and the sweep submits the text of entry 6 alone.
    In the timer-driven revision: an entry naming media row 7 is created and
    its timer armed; the entry and then the media row are deleted; when the
    timer goes off the dispatch submits the text alone.
    Either time there is a provider call, and no [failed] is recorded. *)
Lemma C2_counterexample :
  (let provider := accepting "wamid.1" in
   let first := snd (Server.process_one provider (text_msg "pending") (world_of queue_db)) in
   let emptied := mkDb [] [text_msg "sent"] 7 in
   select_due 2000 queue_db = [text_msg "pending"; late_photo]
   /\ delete_media 7 (db first) = None
   /\ delete_media 7 (delete_message 6 (db first)) = Some emptied
   /\ select_media 7 emptied = None
   /\ Server.process_one provider late_photo
        (mkWorld emptied (calls first) (errors first) (timers first))
      = (Ok tt,
         mkWorld emptied
                 [PostMessages (text_payload "+1555" (Some "hi"));
                  PostMessages (text_payload "+1666" (Some "look"))]
                 [] []))
  /\ (let provider := accepting "wamid.1" in
      let row := mkMsg 1 "+1555" (Some "hi") (Some 7) 1893492000000 "pending" in
      let created := TimerServer.post_schedule_message UTC 1893000000000 photo_request
                       (world_of (mkDb [jpeg] [] 1)) in
      let emptied := mkDb [] [] 2 in
      created = (Ok Scheduled, mkWorld (mkDb [jpeg] [row] 2) [] [] [Armed 492000000 row])
      /\ delete_media 7 (db (snd created)) = None
      /\ delete_media 7 (delete_message 1 (db (snd created))) = Some emptied
      /\ TimerServer.fire provider (Armed 492000000 row)
           (mkWorld emptied [] [] [Armed 492000000 row])
         = (Ok tt,
            mkWorld emptied [PostMessages (text_payload "+1555" (Some "hi"))] []
                    [Armed 492000000 row])).
Proof. split; repeat split. Qed.
